(** * GrowMe: selection state and bulk selection of [src/App.tsx]

    A shallow embedding of the stateful core of the [App] component: the
    React state cells, the page loader [fetchArtworks], the paginator handler
    [handlePageChange], the per-page selection merge [handleSelectionChange],
    the derived [getCurrentPageSelectedRows] and the bulk selection walk
    [handleSelectRowsByCount].

    Conventions.
    - JavaScript numbers that the component uses as counters, page indices
      and record ids are integers; they are modelled as [Z] (exact below
      2^53, the range in which the doubles of the source are exact).
    - [Set<number>] is used through [has], [add], [delete] and [size] only,
      so it is a [gset Z].
    - The remote endpoint is a parameter [fetch : Z -> FetchResult]: one
      call stands for [await fetch(url)] followed by [await response.json()],
      which either yields a body [{ data, pagination }] of the declared
      types or throws. The answers outside of this (a body of another shape,
      whatever the status) are those of [Exchange], for [fetchArtworks].
    - A handler is a function from the state of the render it belongs to, to
      the state after it, with the effects it had on the way. *)

From Stdlib Require Import ZArith Lia Ascii String.
From Equations Require Import Equations.
From stdpp Require Import base decidable list gmap sets fin_sets strings numbers.

Local Open Scope Z_scope.
Set Warnings "-clear-no-such-hyp".

(** ** Data model (the two interfaces of the source) *)

Record Artwork := mkArtwork {
  id : Z;
  title : string;
  place_of_origin : string;
  artist_display : string;
  inscriptions : string;
  date_start : Z;
  date_end : Z;
}.

Record PaginationInfo := mkPaginationInfo {
  total : Z;
  limit : Z;
  offset : Z;
  total_pages : Z;
  current_page : Z;
}.

(** What a rejected promise of the network layer carries: [fetch] rejects on a
    transport failure, [response.json()] on a malformed body. *)
Inductive JsError :=
| NetworkError
| ParseError.

(** Result of one round trip to [/artworks?page=<page>]. *)
Inductive FetchResult :=
| Resolved (data : list Artwork) (pg : PaginationInfo)
| Rejected (e : JsError).

(** ** Component state: the [useState] cells of [App] *)

Record AppState := mkAppState {
  artworks : list Artwork;
  loading : bool;
  pagination : PaginationInfo;
  selectedRowIds : gset Z;
  rowCountInput : string;
}.

(** The initial values passed to [useState]. *)
Definition initialState : AppState :=
  {| artworks := [];
     loading := false;
     pagination := {| total := 0; limit := 12; offset := 0;
                      total_pages := 0; current_page := 1 |};
     selectedRowIds := ∅;
     rowCountInput := EmptyString |}.

Definition setArtworks (v : list Artwork) (st : AppState) : AppState :=
  {| artworks := v; loading := loading st; pagination := pagination st;
     selectedRowIds := selectedRowIds st; rowCountInput := rowCountInput st |}.

Definition setLoading (v : bool) (st : AppState) : AppState :=
  {| artworks := artworks st; loading := v; pagination := pagination st;
     selectedRowIds := selectedRowIds st; rowCountInput := rowCountInput st |}.

Definition setPagination (v : PaginationInfo) (st : AppState) : AppState :=
  {| artworks := artworks st; loading := loading st; pagination := v;
     selectedRowIds := selectedRowIds st; rowCountInput := rowCountInput st |}.

Definition setSelectedRowIds (v : gset Z) (st : AppState) : AppState :=
  {| artworks := artworks st; loading := loading st; pagination := pagination st;
     selectedRowIds := v; rowCountInput := rowCountInput st |}.

Definition setRowCountInput (v : string) (st : AppState) : AppState :=
  {| artworks := artworks st; loading := loading st; pagination := pagination st;
     selectedRowIds := selectedRowIds st; rowCountInput := v |}.

(** ** Observable effects of a handler *)

Inductive Effect :=
| EFetch (page : Z)            (* fetch(`.../artworks?page=${page}`) *)
| EAlert (msg : string)        (* alert(msg) *)
| EConsoleError (e : JsError)  (* console.error("Error fetching artworks:", e) *)
| EHideOverlay.                (* overlayPanelRef.current?.hide() *)

(** Value an [async] handler's promise settles with. None of the handlers has
    a [return <expr>] statement, so a fulfilled promise carries [undefined]. *)
Inductive JsValue :=
| Undefined
| Number (n : Z).

Inductive Completion :=
| Fulfilled (v : JsValue)
| Thrown (e : JsError).

Record Outcome := mkOutcome {
  effects : list Effect;
  final : AppState;
  completion : Completion;
}.

(** The pages requested by a run, in the order of the requests. *)
Fixpoint fetchedPages (es : list Effect) : list Z :=
  match es with
  | [] => []
  | EFetch p :: es' => p :: fetchedPages es'
  | _ :: es' => fetchedPages es'
  end.

(** ** [parseInt(string)] with the radix left out (ECMAScript 19.2.5)

    Strings are sequences of ASCII code units here; the white space that is
    stripped is TAB, LF, VT, FF, CR and SPACE. [None] stands for [NaN]. *)

Definition isWhiteSpace (c : ascii) : bool :=
  let n := nat_of_ascii c in
  ((9 <=? n) && (n <=? 13))%nat || (n =? 32)%nat.

Fixpoint trimStart (s : string) : string :=
  match s with
  | String c s' => if isWhiteSpace c then trimStart s' else s
  | EmptyString => s
  end.

Definition digitValue (c : ascii) : option Z :=
  let n := nat_of_ascii c in
  if ((48 <=? n) && (n <=? 57))%nat then Some (Z.of_nat (n - 48))
  else if ((97 <=? n) && (n <=? 122))%nat then Some (Z.of_nat (n - 87))
  else if ((65 <=? n) && (n <=? 90))%nat then Some (Z.of_nat (n - 55))
  else None.

(** Longest prefix of radix-[R] digits, most significant first. *)
Fixpoint radixDigits (R : Z) (s : string) : list Z :=
  match s with
  | String c s' =>
      match digitValue c with
      | Some d => if d <? R then d :: radixDigits R s' else []
      | None => []
      end
  | EmptyString => []
  end.

Definition digitsValue (R : Z) (ds : list Z) : Z :=
  fold_left (fun acc d => acc * R + d) ds 0.

Definition stripSign (s : string) : Z * string :=
  match s with
  | String "-" s' => (-1, s')
  | String "+" s' => (1, s')
  | _ => (1, s)
  end.

Definition stripHexPrefix (s : string) : Z * string :=
  match s with
  | String "0" (String "x" s') => (16, s')
  | String "0" (String "X" s') => (16, s')
  | _ => (10, s)
  end.

Definition parseInt (input : string) : option Z :=
  let '(sign, s1) := stripSign (trimStart input) in
  let '(R, s2) := stripHexPrefix s1 in
  match radixDigits R s2 with
  | [] => None
  | ds => Some (sign * digitsValue R ds)
  end.

(** ** Bulk selection: [handleSelectRowsByCount]

    The handler is run to completion: no other handler is placed between its
    [await]s. What it stores ([setSelectedRowIds], [setRowCountInput]) comes
    after the loop, so a run that throws stores nothing. *)

(** The inner [for (const artwork of data.data)] loop with its [break]. *)
Fixpoint selectRows (data : list Artwork) (rowsToSelect : Z)
    (updatedSelectedIds : gset Z) : Z * gset Z :=
  match data with
  | [] => (rowsToSelect, updatedSelectedIds)
  | artwork :: rest =>
      if decide (rowsToSelect = 0) then (rowsToSelect, updatedSelectedIds)
      else selectRows rest (rowsToSelect - 1) ({[ id artwork ]} ∪ updatedSelectedIds)
  end.

(** The locals of the [while] loop. *)
Record Walk := mkWalk {
  rowsToSelect : Z;
  currentPage : Z;
  updatedSelectedIds : gset Z;
}.

(** [while (rowsToSelect > 0 && currentPage <= pagination.total_pages)]:
    returns the pages requested and either the locals at loop exit or the
    error thrown by the request that failed. [currentPage] grows by one per
    round up to the fixed bound, which is the termination measure. *)
Equations? walkPages (fetch : Z → FetchResult) (totalPages : Z) (w : Walk) :
    list Z * (JsError + Walk)
    by wf (Z.to_nat (totalPages + 1 - currentPage w)) lt :=
  walkPages fetch totalPages w
    with decide (rowsToSelect w > 0 ∧ currentPage w <= totalPages) => {
    | right _ := ([], inr w);
    | left _ with fetch (currentPage w) => {
        | Rejected e := ([currentPage w], inl e);
        | Resolved data _ :=
            let r := selectRows data (rowsToSelect w) (updatedSelectedIds w) in
            let rest :=
              walkPages fetch totalPages
                {| rowsToSelect := r.1; currentPage := currentPage w + 1;
                   updatedSelectedIds := r.2 |} in
            (currentPage w :: rest.1, rest.2) } }.
Proof. simpl. lia. Qed.

Definition invalidNumberMessage : string := "Please enter a valid number".

Definition handleSelectRowsByCount (fetch : Z → FetchResult) (st : AppState) : Outcome :=
  match parseInt (rowCountInput st) with
  | None =>
      {| effects := [EAlert invalidNumberMessage]; final := st;
         completion := Fulfilled Undefined |}
  | Some count =>
      if decide (count <= 0) then
        {| effects := [EAlert invalidNumberMessage]; final := st;
           completion := Fulfilled Undefined |}
      else
        let w0 := {| rowsToSelect := count; currentPage := 1;
                     updatedSelectedIds := selectedRowIds st |} in
        match walkPages fetch (total_pages (pagination st)) w0 with
        | (pages, inl e) =>
            {| effects := EFetch <$> pages; final := st; completion := Thrown e |}
        | (pages, inr w) =>
            {| effects := (EFetch <$> pages) ++ [EHideOverlay];
               final := setRowCountInput EmptyString
                          (setSelectedRowIds (updatedSelectedIds w) st);
               completion := Fulfilled Undefined |}
        end
  end.

(** The locals of a walk that started with [ids0] already in the set. *)
Definition addIds (ids0 : gset Z) (w : Walk) : Walk :=
  {| rowsToSelect := rowsToSelect w; currentPage := currentPage w;
     updatedSelectedIds := ids0 ∪ updatedSelectedIds w |}.

(** ** Per-page selection merge: [handleSelectionChange] *)

(** The [value] of the table's selection event. The handler tests it with
    [Array.isArray]; in multiple selection mode it is the array of the rows
    now checked on the visible page. *)
Inductive SelectionValue :=
| Rows (value : list Artwork)
| NotAnArray.

(** [artworks.map((artwork) => artwork.id)] *)
Definition currentPageRowIds (st : AppState) : list Z := id <$> artworks st.

(** [ids.forEach((id) => s.delete(id))] *)
Definition deleteEach (ids : list Z) (s : gset Z) : gset Z :=
  fold_left (fun acc i => acc ∖ {[ i ]}) ids s.

(** [value.forEach((artwork) => s.add(artwork.id))] *)
Definition addEach (value : list Artwork) (s : gset Z) : gset Z :=
  fold_left (fun acc artwork => {[ id artwork ]} ∪ acc) value s.

Definition handleSelectionChange (e : SelectionValue) (st : AppState) : AppState :=
  let updatedSelectedIds :=
    match e with
    | Rows value => addEach value (deleteEach (currentPageRowIds st) (selectedRowIds st))
    | NotAnArray => selectedRowIds st
    end in
  setSelectedRowIds updatedSelectedIds st.

(** ** Checked rows of the visible page: [getCurrentPageSelectedRows] *)

Definition getCurrentPageSelectedRows (st : AppState) : list Artwork :=
  filter (fun artwork => id artwork ∈ selectedRowIds st) (artworks st).

(** [selectedRowIds.size] *)
Definition totalSelectedCount (st : AppState) : nat := size (selectedRowIds st).

(** ** Page loading: [fetchArtworks]

    The function has one suspension: everything before [await fetch(...)]
    runs when it is called, everything after [await response.json()] runs
    when the response arrives. The two halves are kept apart so that other
    events can be placed between them. *)

(** Up to the first [await]: [setLoading(true)] and the request is sent. *)
Definition fetchArtworksBegin (st : AppState) : AppState := setLoading true st.

(** From the response on: the [try] body, the [catch] and the [finally]. *)
Definition fetchArtworksSettle (r : FetchResult) (st : AppState) : list Effect * AppState :=
  match r with
  | Resolved data pg =>
      ([], setLoading false (setPagination pg (setArtworks data st)))
  | Rejected e =>
      ([EConsoleError e], setLoading false st)
  end.

(** A call that nothing interrupts. *)
Definition fetchArtworks (fetch : Z → FetchResult) (page : Z) (st : AppState) : Outcome :=
  let r := fetchArtworksSettle (fetch page) (fetchArtworksBegin st) in
  {| effects := EFetch page :: r.1; final := r.2; completion := Fulfilled Undefined |}.

(** ** The component with requests in flight

    Single-threaded event loop: an event is a page change of the paginator
    ([handlePageChange], whose [event.page] is 0-based), or the arrival of the
    response to a request that is still in flight. *)

Record Session := mkSession {
  app : AppState;
  inFlight : list Z;       (* pages requested, response not yet arrived *)
  console : list Effect;   (* effects so far, oldest first *)
}.

Inductive Event :=
| PageChange (eventPage : Z)
| Arrives (page : Z) (r : FetchResult).

(** The component showing [st] with no request in flight. *)
Definition atRest (st : AppState) : Session :=
  {| app := st; inFlight := []; console := [] |}.

(** Removes the first occurrence of [p]; [None] when there is none. *)
Fixpoint takeOut (p : Z) (l : list Z) : option (list Z) :=
  match l with
  | [] => None
  | q :: l' => if decide (p = q) then Some l' else (q ::.) <$> takeOut p l'
  end.

Definition handlePageChange (eventPage : Z) (s : Session) : Session :=
  let page := eventPage + 1 in
  {| app := fetchArtworksBegin (app s);
     inFlight := inFlight s ++ [page];
     console := console s ++ [EFetch page] |}.

Definition step (s : Session) (ev : Event) : option Session :=
  match ev with
  | PageChange eventPage => Some (handlePageChange eventPage s)
  | Arrives page r =>
      match takeOut page (inFlight s) with
      | None => None
      | Some rest =>
          let r' := fetchArtworksSettle r (app s) in
          Some {| app := r'.2; inFlight := rest; console := console s ++ r'.1 |}
      end
  end.

Fixpoint run (s : Session) (evs : list Event) : option Session :=
  match evs with
  | [] => Some s
  | ev :: evs' =>
      match step s ev with
      | Some s' => run s' evs'
      | None => None
      end
  end.

(** ** Notions of the specification used in the statements *)

(** A count input that is an integer numeral: an optional sign followed by
    decimal digits only. *)
Definition isDecimalDigit (c : ascii) : bool :=
  let n := nat_of_ascii c in ((48 <=? n) && (n <=? 57))%nat.

Fixpoint allDecimalDigits (s : string) : bool :=
  match s with
  | EmptyString => true
  | String c s' => isDecimalDigit c && allDecimalDigits s'
  end.

Definition integerNumeral (s : string) : bool :=
  match (stripSign s).2 with
  | EmptyString => false
  | body => allDecimalDigits body
  end.

(** Number of records on page [page], 0 when its request fails. *)
Definition pageLength (fetch : Z → FetchResult) (page : Z) : Z :=
  match fetch page with
  | Resolved data _ => Z.of_nat (length data)
  | Rejected _ => 0
  end.

(** Records on pages [1 .. k-1]. *)
Definition recordsBefore (fetch : Z → FetchResult) (k : Z) : Z :=
  foldr (fun p acc => pageLength fetch p + acc) 0 (seqZ 1 (k - 1)).

(** Pages of [pageSize] records needed to reach [rows] records. *)
Definition pagesFor (rows pageSize : Z) : Z := (rows + pageSize - 1) / pageSize.

(** Ids of a list of records, as a set. *)
Definition idSet (l : list Artwork) : gset Z := list_to_set (id <$> l).

(** The source's counters are binary64 numbers: up to 2^53 every integer is
    one of them and [rowsToSelect--] subtracts exactly one, as the [Z] of this
    file does. Statements about the value of the loop counter are made for
    counts up to this bound. *)
Definition maxExactCount : Z := 2 ^ 53.

(** ** A paged collection as the remote endpoint

    The environment of the scenarios: a fixed collection served in pages of
    [pageSize] records, page [p] holding records [(p-1)*pageSize+1 ..
    p*pageSize] of the collection, together with the metadata of
    [PaginationInfo]. It never fails. *)

Definition pageRecords (coll : list Artwork) (pageSize page : Z) : list Artwork :=
  take (Z.to_nat pageSize) (drop (Z.to_nat ((page - 1) * pageSize)) coll).

Definition pageCount (coll : list Artwork) (pageSize : Z) : Z :=
  (Z.of_nat (length coll) + pageSize - 1) / pageSize.

Definition pageInfo (coll : list Artwork) (pageSize page : Z) : PaginationInfo :=
  {| total := Z.of_nat (length coll);
     limit := pageSize;
     offset := (page - 1) * pageSize;
     total_pages := pageCount coll pageSize;
     current_page := page |}.

Definition pagedEndpoint (coll : list Artwork) (pageSize : Z) : Z → FetchResult :=
  fun page => Resolved (pageRecords coll pageSize page) (pageInfo coll pageSize page).

(** An endpoint whose request for page [bad] fails with [e]. *)
Definition failingAt (bad : Z) (e : JsError) (fetch : Z → FetchResult) : Z → FetchResult :=
  fun page => if decide (page = bad) then Rejected e else fetch page.

(** A sample record and a sample collection with ids [first .. first+n-1]. *)
Definition sampleArtwork (i : Z) : Artwork :=
  {| id := i; title := "Untitled"; place_of_origin := "Chicago";
     artist_display := "Unknown"; inscriptions := "none";
     date_start := 1900; date_end := 1901 |}.

Definition sampleCollection (n : nat) : list Artwork :=
  sampleArtwork <$> seqZ 1 (Z.of_nat n).

Definition loadedState (coll : list Artwork) (pageSize page : Z) : AppState :=
  setPagination (pageInfo coll pageSize page)
    (setArtworks (pageRecords coll pageSize page) initialState).


(** ** Mounting: [useEffect(() => { fetchArtworks(1); }, [])] *)

(** A call of [fetchArtworks(page)] seen from the event loop: the part up to
    the [await] runs, the request is in flight. *)
Definition callFetchArtworks (page : Z) (s : Session) : Session :=
  {| app := fetchArtworksBegin (app s);
     inFlight := inFlight s ++ [page];
     console := console s ++ [EFetch page] |}.

(** The component after its first render and the mount effect. *)
Definition mounted : Session := callFetchArtworks 1 (atRest initialState).

(** ** [fetchArtworks] over every answer of the endpoint

    [FetchResult] above keeps to answers whose body has the declared types.
    The source tests neither [response.ok] nor the shape of the body, so the
    other answers are modelled here: the state cells hold whatever
    [data.data] and [data.pagination] are. Numbers are integers, as
    everywhere in this file; no step of [fetchArtworks] looks at one. *)

Set Warnings "-register-all".

(** A value as [response.json()] yields it. [members] lists the properties
    of an object, each key once. *)
Inductive Json :=
| JNull
| JBool (b : bool)
| JNumber (n : Z)
| JString (s : string)
| JArray (items : list Json)
| JObject (members : list (string * Json)).

(** What a property read or a state cell holds: [undefined] or a value. *)
Inductive Held :=
| HeldUndefined
| HeldValue (j : Json).

Fixpoint lookupMember (key : string) (members : list (string * Json)) : Held :=
  match members with
  | [] => HeldUndefined
  | (k, v) :: rest => if decide (k = key) then HeldValue v else lookupMember key rest
  end.

(** [j.key] for a value that is not [null]: a member of an object, and
    [undefined] for the keys used here on any other value. *)
Definition property (key : string) (j : Json) : Held :=
  match j with
  | JObject members => lookupMember key members
  | _ => HeldUndefined
  end.

(** [j.key]: [None] is the [TypeError] of reading a property of [null]. *)
Definition readProperty (key : string) (j : Json) : option Held :=
  match j with
  | JNull => None
  | _ => Some (property key j)
  end.

(** One request as the function sees it. [ok] is [response.ok]; the source
    never reads it. *)
Inductive Exchange :=
| FetchRejects (e : JsError)               (* [await fetch(...)] throws *)
| JsonRejects (ok : bool) (e : JsError)    (* [await response.json()] throws *)
| JsonResolves (ok : bool) (body : Json).  (* the body parsed, whatever the status *)

(** What the [catch] block receives. *)
Inductive Caught :=
| CaughtRejection (e : JsError)
| CaughtNullBody.                          (* the [TypeError] of [null.data] *)

Inductive LoaderEffect :=
| LFetch (page : Z)
| LConsoleError (c : Caught).

(** The state cells as JavaScript holds them. *)
Record Display := mkDisplay {
  heldArtworks : Held;
  heldLoading : bool;
  heldPagination : Held;
  heldSelectedRowIds : gset Z;
  heldRowCountInput : string;
}.

Definition holdArtworks (v : Held) (d : Display) : Display :=
  {| heldArtworks := v; heldLoading := heldLoading d;
     heldPagination := heldPagination d;
     heldSelectedRowIds := heldSelectedRowIds d;
     heldRowCountInput := heldRowCountInput d |}.

Definition holdLoading (v : bool) (d : Display) : Display :=
  {| heldArtworks := heldArtworks d; heldLoading := v;
     heldPagination := heldPagination d;
     heldSelectedRowIds := heldSelectedRowIds d;
     heldRowCountInput := heldRowCountInput d |}.

Definition holdPagination (v : Held) (d : Display) : Display :=
  {| heldArtworks := heldArtworks d; heldLoading := heldLoading d;
     heldPagination := v;
     heldSelectedRowIds := heldSelectedRowIds d;
     heldRowCountInput := heldRowCountInput d |}.

(** [fetchArtworks(page)] with nothing in between: [setLoading(true)], the
    [try] body up to the first statement that throws, the [catch] and the
    [finally]. *)
Definition fetchArtworksAnswered (page : Z) (x : Exchange) (d : Display) :
    list LoaderEffect * Display :=
  let d1 := holdLoading true d in
  match x with
  | FetchRejects e | JsonRejects _ e =>
      ([LFetch page; LConsoleError (CaughtRejection e)], holdLoading false d1)
  | JsonResolves _ data =>
      match readProperty "data" data with
      | None => ([LFetch page; LConsoleError CaughtNullBody], holdLoading false d1)
      | Some a =>
          let d2 := holdArtworks a d1 in
          match readProperty "pagination" data with
          | None => ([LFetch page; LConsoleError CaughtNullBody], holdLoading false d2)
          | Some p => ([LFetch page], holdLoading false (holdPagination p d2))
          end
      end
  end.

(** The declared types as JSON, and a typed state as the cells hold it. *)
Definition artworkJson (a : Artwork) : Json :=
  JObject [ ("id", JNumber (id a));
            ("title", JString (title a));
            ("place_of_origin", JString (place_of_origin a));
            ("artist_display", JString (artist_display a));
            ("inscriptions", JString (inscriptions a));
            ("date_start", JNumber (date_start a));
            ("date_end", JNumber (date_end a)) ].

Definition paginationJson (p : PaginationInfo) : Json :=
  JObject [ ("total", JNumber (total p));
            ("limit", JNumber (limit p));
            ("offset", JNumber (offset p));
            ("total_pages", JNumber (total_pages p));
            ("current_page", JNumber (current_page p)) ].

Definition bodyJson (data : list Artwork) (pg : PaginationInfo) : Json :=
  JObject [ ("data", JArray (artworkJson <$> data));
            ("pagination", paginationJson pg) ].

Definition displayOf (st : AppState) : Display :=
  {| heldArtworks := HeldValue (JArray (artworkJson <$> artworks st));
     heldLoading := loading st;
     heldPagination := HeldValue (paginationJson (pagination st));
     heldSelectedRowIds := selectedRowIds st;
     heldRowCountInput := rowCountInput st |}.

(** The exchange behind a [FetchResult]. *)
Definition exchangeOf (r : FetchResult) : Exchange :=
  match r with
  | Resolved data pg => JsonResolves true (bodyJson data pg)
  | Rejected NetworkError => FetchRejects NetworkError
  | Rejected ParseError => JsonRejects true ParseError
  end.

Definition loaderEffectOf (e : Effect) : list LoaderEffect :=
  match e with
  | EFetch page => [LFetch page]
  | EConsoleError err => [LConsoleError (CaughtRejection err)]
  | _ => []
  end.

(** An error answer of the endpoint: status 404 with a JSON body that has
    neither [data] nor [pagination]. *)
Definition notFoundBody : Json :=
  JObject [ ("status", JNumber 404); ("error", JString "Not found");
            ("detail", JString "The item you requested cannot be found.") ].

(** ** The bulk selection with other handlers in between

    The handler reads [rowCountInput], [selectedRowIds] and [pagination] from
    the render it was created in ([called]); while it waits for a page other
    handlers may run, and its last statements write to the state as it is by
    then ([now]). On the paths that store nothing the state is left as it
    is. *)
Definition handleSelectRowsByCountOver (fetch : Z → FetchResult)
    (called now : AppState) : Outcome :=
  match parseInt (rowCountInput called) with
  | None =>
      {| effects := [EAlert invalidNumberMessage]; final := now;
         completion := Fulfilled Undefined |}
  | Some count =>
      if decide (count <= 0) then
        {| effects := [EAlert invalidNumberMessage]; final := now;
           completion := Fulfilled Undefined |}
      else
        let w0 := {| rowsToSelect := count; currentPage := 1;
                     updatedSelectedIds := selectedRowIds called |} in
        match walkPages fetch (total_pages (pagination called)) w0 with
        | (pages, inl e) =>
            {| effects := EFetch <$> pages; final := now; completion := Thrown e |}
        | (pages, inr w) =>
            {| effects := (EFetch <$> pages) ++ [EHideOverlay];
               final := setRowCountInput EmptyString
                          (setSelectedRowIds (updatedSelectedIds w) now);
               completion := Fulfilled Undefined |}
        end
  end.

(** ** [parseInt] on sample inputs *)

Example parseInt_15 : parseInt "15" = Some 15.
Proof. reflexivity. Qed.

Example parseInt_fraction : parseInt "3.7" = Some 3.
Proof. reflexivity. Qed.

Example parseInt_exponent : parseInt "1e5" = Some 1.
Proof. reflexivity. Qed.

Example parseInt_negative : parseInt " -3" = Some (-3).
Proof. reflexivity. Qed.

Example parseInt_zero : parseInt "0" = Some 0.
Proof. reflexivity. Qed.

Example parseInt_letters : parseInt "abc" = None.
Proof. reflexivity. Qed.

Example parseInt_empty : parseInt EmptyString = None.
Proof. reflexivity. Qed.

Example parseInt_hex : parseInt "0x1f" = Some 31.
Proof. reflexivity. Qed.

(** ** The inner loop *)

Lemma selectRows_spec (data : list Artwork) (rows : Z) (ids : gset Z) :
  0 <= rows →
  selectRows data rows ids =
    (rows - Z.of_nat (length (take (Z.to_nat rows) data)),
     ids ∪ idSet (take (Z.to_nat rows) data)).
Proof.
  revert rows ids. induction data as [|a data IH]; intros rows ids Hrows; simpl.
  - rewrite take_nil. unfold idSet. simpl. f_equal; [lia | set_solver].
  - destruct (decide (rows = 0)) as [->|Hne]; simpl.
    + unfold idSet. simpl. f_equal. set_solver.
    + rewrite IH by lia.
      replace (Z.to_nat rows) with (S (Z.to_nat (rows - 1))) by lia.
      simpl. unfold idSet. simpl. f_equal; [lia | set_solver].
Qed.

Lemma walkPages_eq (fetch : Z → FetchResult) (tp : Z) (w : Walk) :
  walkPages fetch tp w =
    if decide (rowsToSelect w > 0 ∧ currentPage w <= tp) then
      match fetch (currentPage w) with
      | Rejected e => ([currentPage w], inl e)
      | Resolved data _ =>
          let r := selectRows data (rowsToSelect w) (updatedSelectedIds w) in
          let rest := walkPages fetch tp
                        {| rowsToSelect := r.1; currentPage := currentPage w + 1;
                           updatedSelectedIds := r.2 |} in
          (currentPage w :: rest.1, rest.2)
      end
    else ([], inr w).
Proof.
  simp walkPages.
  destruct (decide (rowsToSelect w > 0 ∧ currentPage w <= tp)); simpl; [|done].
  destruct (fetch (currentPage w)); simpl; done.
Qed.

Lemma selectRows_frame (data : list Artwork) (rows : Z) (ids ids0 : gset Z) :
  selectRows data rows (ids0 ∪ ids) =
    ((selectRows data rows ids).1, ids0 ∪ (selectRows data rows ids).2).
Proof.
  revert rows ids. induction data as [|a data IH]; intros rows ids; simpl; [done|].
  destruct (decide (rows = 0)); [done|].
  rewrite <- IH. f_equal. set_solver.
Qed.

(** ** The page walk, for any endpoint *)

(** The pages requested are consecutive, starting at [currentPage]. *)
Lemma walkPages_pages (fetch : Z → FetchResult) (tp : Z) (w : Walk) :
  (walkPages fetch tp w).1 =
    seqZ (currentPage w) (Z.of_nat (length (walkPages fetch tp w).1)).
Proof.
  funelim (walkPages fetch tp w); simpl.
  - done.
  - match goal with IH : _.1 = seqZ _ _ |- _ => simpl in IH; rewrite IH at 1 end.
    rewrite (seqZ_cons (currentPage w)) by lia.
    f_equal. f_equal; lia.
  - done.
Qed.

(** No page beyond the bound the walk was given is requested. *)
Lemma walkPages_bound (fetch : Z → FetchResult) (tp : Z) (w : Walk) (p : Z) :
  p ∈ (walkPages fetch tp w).1 → currentPage w <= p <= tp.
Proof.
  funelim (walkPages fetch tp w); simpl.
  - by intros ?%elem_of_nil.
  - intros [->|Hin]%elem_of_cons; [lia|].
    match goal with IH : ∀ _, _ → _ |- _ => apply IH in Hin end.
    simpl in Hin. lia.
  - intros ->%list_elem_of_singleton. lia.
Qed.

(** Ids already in the set do not influence the walk: they are carried along. *)
Lemma walkPages_frame (fetch : Z → FetchResult) (tp : Z) (w : Walk) (ids0 : gset Z) :
  walkPages fetch tp (addIds ids0 w) =
    ((walkPages fetch tp w).1,
     sum_map (fun e => e) (addIds ids0) (walkPages fetch tp w).2).
Proof.
  revert ids0.
  funelim (walkPages fetch tp w); intros ids0;
    rewrite (walkPages_eq _ _ (addIds _ _)); simpl.
  - rewrite decide_False by done. done.
  - rewrite decide_True by done. rewrite Heq. simpl.
    rewrite selectRows_frame. simpl.
    match goal with IH : ∀ _, walkPages _ _ (addIds _ _) = _ |- _ =>
      specialize (IH ids0); unfold addIds in IH; simpl in IH; rewrite IH end.
    done.
  - rewrite decide_True by done. rewrite Heq. done.
Qed.

(** With no page to visit the loop body never runs. *)
Lemma walkPages_none (fetch : Z → FetchResult) (tp : Z) (w : Walk) :
  tp < currentPage w ∨ rowsToSelect w <= 0 →
  walkPages fetch tp w = ([], inr w).
Proof.
  intros H. rewrite walkPages_eq. rewrite decide_False by lia. done.
Qed.

(** A request that fails ends the walk there: page [k] is the last one
    requested when the pages before it hold fewer records than asked for. *)
Lemma walkPages_fails (fetch : Z → FetchResult) (tp k : Z) (e : JsError) (n : nat) :
  ∀ w,
    Z.of_nat n = k - currentPage w →
    k <= tp →
    fetch k = Rejected e →
    (∀ j, currentPage w <= j < k → ∃ data pg, fetch j = Resolved data pg) →
    foldr (fun p acc => pageLength fetch p + acc) 0 (seqZ (currentPage w) (Z.of_nat n))
      < rowsToSelect w →
    walkPages fetch tp w = (seqZ (currentPage w) (Z.of_nat n + 1), inl e).
Proof.
  induction n as [|n IH]; intros w Hn Hk Hrej Hres Hrows.
  - simpl in Hrows. assert (currentPage w = k) as Hw by lia.
    rewrite walkPages_eq, decide_True by lia. rewrite Hw, Hrej. done.
  - destruct (Hres (currentPage w)) as (data & pg & Hdata); [lia|].
    rewrite seqZ_cons in Hrows by lia. simpl in Hrows.
    unfold pageLength in Hrows at 1. rewrite Hdata in Hrows.
    assert (0 <= foldr (fun p acc => pageLength fetch p + acc) 0
                   (seqZ (Z.succ (currentPage w)) (Z.pred (Z.of_nat (S n))))) as Hnonneg.
    { generalize (seqZ (Z.succ (currentPage w)) (Z.pred (Z.of_nat (S n)))).
      intros l. induction l as [|p l IHl]; simpl; [lia|].
      unfold pageLength at 1. destruct (fetch p); lia. }
    rewrite walkPages_eq, decide_True by lia. rewrite Hdata. simpl.
    rewrite selectRows_spec by lia. simpl.
    rewrite length_take in *.
    rewrite IH; simpl.
    + rewrite (seqZ_cons (currentPage w)) by lia.
      f_equal. f_equal. f_equal; lia.
    + lia.
    + done.
    + done.
    + intros j Hj. apply Hres. lia.
    + replace (Z.of_nat n) with (Z.pred (Z.of_nat (S n))) by lia.
      replace (currentPage w + 1) with (Z.succ (currentPage w)) by lia.
      lia.
Qed.

(** ** The handler's outcome, for any endpoint *)

Lemma fetchedPages_fetches (pages : list Z) (es : list Effect) :
  fetchedPages ((EFetch <$> pages) ++ es) = pages ++ fetchedPages es.
Proof. induction pages as [|p pages IH]; simpl; [done|]. f_equal. apply IH. Qed.

(** A count that parses to [n >= 1] starts the walk at page 1 with a copy of
    the current selection; the copy is stored only when the walk returns. *)
Lemma handleSelectRowsByCount_walk (fetch : Z → FetchResult) (st : AppState) (n : Z) :
  parseInt (rowCountInput st) = Some n → 1 <= n →
  handleSelectRowsByCount fetch st =
    match walkPages fetch (total_pages (pagination st))
            {| rowsToSelect := n; currentPage := 1;
               updatedSelectedIds := selectedRowIds st |} with
    | (pages, inl e) =>
        {| effects := EFetch <$> pages; final := st; completion := Thrown e |}
    | (pages, inr w) =>
        {| effects := (EFetch <$> pages) ++ [EHideOverlay];
           final := setRowCountInput EmptyString
                      (setSelectedRowIds (updatedSelectedIds w) st);
           completion := Fulfilled Undefined |}
    end.
Proof.
  intros Hparse Hn. unfold handleSelectRowsByCount. rewrite Hparse.
  rewrite decide_False by lia. done.
Qed.

(** Whatever the responses say, the pages requested lie between 1 and the
    page count that was stored when the handler was called. *)
Lemma handleSelectRowsByCount_page_bound (fetch : Z → FetchResult) (st : AppState) (p : Z) :
  p ∈ fetchedPages (effects (handleSelectRowsByCount fetch st)) →
  1 <= p <= total_pages (pagination st).
Proof.
  unfold handleSelectRowsByCount.
  destruct (parseInt (rowCountInput st)) as [n|]; simpl;
    [|by intros ?%elem_of_nil].
  destruct (decide (n <= 0)); simpl; [by intros ?%elem_of_nil|].
  pose proof (walkPages_bound fetch (total_pages (pagination st))
                {| rowsToSelect := n; currentPage := 1;
                   updatedSelectedIds := selectedRowIds st |} p) as Hb.
  destruct (walkPages _ _ _) as [pages [e|w]]; simpl in *.
  - rewrite <- (app_nil_r (EFetch <$> pages)), fetchedPages_fetches, app_nil_r.
    done.
  - rewrite fetchedPages_fetches. simpl. rewrite app_nil_r. done.
Qed.

Lemma setRowCountInput_same (st : AppState) :
  setRowCountInput (rowCountInput st) st = st.
Proof. by destruct st. Qed.

Lemma walkPages_from_empty (fetch : Z → FetchResult) (tp n : Z) (ids : gset Z) :
  walkPages fetch tp {| rowsToSelect := n; currentPage := 1; updatedSelectedIds := ids |} =
    let r := walkPages fetch tp
               {| rowsToSelect := n; currentPage := 1; updatedSelectedIds := ∅ |} in
    (r.1, sum_map (fun e => e) (addIds ids) r.2).
Proof.
  rewrite <- walkPages_frame. unfold addIds. simpl. do 2 f_equal. set_solver.
Qed.

Lemma pageLengths_nonneg (fetch : Z → FetchResult) (pages : list Z) :
  0 <= foldr (fun p acc => pageLength fetch p + acc) 0 pages.
Proof.
  induction pages as [|p pages IH]; simpl; [lia|].
  unfold pageLength at 1. destruct (fetch p); lia.
Qed.

Lemma idSet_app (l1 l2 : list Artwork) : idSet (l1 ++ l2) = idSet l1 ∪ idSet l2.
Proof. unfold idSet. by rewrite fmap_app, list_to_set_app_L. Qed.

Lemma NoDup_take_ids (coll : list Artwork) (n : nat) :
  NoDup (id <$> coll) → NoDup (id <$> take n coll).
Proof.
  intros H. rewrite fmap_take. eapply sublist_NoDup; [|apply sublist_take]. done.
Qed.

(** ** The page walk over a paged collection *)

Section PagedCollection.

Variable coll : list Artwork.
Variable L : Z.
Hypothesis HL : 0 < L.

Lemma pagesFor_0 : pagesFor 0 L = 0.
Proof. unfold pagesFor. apply Z.div_small. lia. Qed.

Lemma pagesFor_step (rows : Z) : pagesFor rows L = pagesFor (rows - L) L + 1.
Proof.
  unfold pagesFor.
  replace (rows + L - 1) with (rows - L + L - 1 + 1 * L) by lia.
  rewrite Z.div_add by lia. done.
Qed.

Lemma pagesFor_1 (rows : Z) : 0 < rows <= L → pagesFor rows L = 1.
Proof.
  intros H. rewrite pagesFor_step. unfold pagesFor.
  rewrite Z.div_small by lia. done.
Qed.

Lemma pageRecords_next (page : Z) :
  1 <= page →
  drop (Z.to_nat ((page + 1 - 1) * L)) coll =
    drop (Z.to_nat L) (drop (Z.to_nat ((page - 1) * L)) coll).
Proof. intros Hp. rewrite drop_drop. f_equal. nia. Qed.

Lemma pageCount_nonneg : 0 <= pageCount coll L.
Proof. unfold pageCount. apply Z.div_pos; lia. Qed.

Lemma pageCount_covers (tp : Z) :
  pageCount coll L <= tp → take (Z.to_nat tp * Z.to_nat L) coll = coll.
Proof.
  intros Htp. apply take_ge. unfold pageCount in Htp.
  pose proof (Z.mul_succ_div_gt (Z.of_nat (length coll) + L - 1) L HL).
  nia.
Qed.

(** With [k] pages left up to the bound, the walk takes the first [rows]
    records of those pages, in order, and requests [pagesFor rows L] pages,
    or all [k] of them when they hold fewer than [rows] records. *)
Lemma walkPages_paged (tp : Z) :
  ∀ (k : nat) (page rows : Z) (ids : gset Z),
    Z.of_nat k = tp + 1 - page → 1 <= page → 0 <= rows →
    let avail := take (k * Z.to_nat L) (drop (Z.to_nat ((page - 1) * L)) coll) in
    let visited := if decide (rows <= Z.of_nat (length avail))
                   then pagesFor rows L else Z.of_nat k in
    walkPages (pagedEndpoint coll L) tp
      {| rowsToSelect := rows; currentPage := page; updatedSelectedIds := ids |} =
    (seqZ page visited,
     inr {| rowsToSelect := rows - Z.of_nat (length (take (Z.to_nat rows) avail));
            currentPage := page + visited;
            updatedSelectedIds := ids ∪ idSet (take (Z.to_nat rows) avail) |}).
Proof.
  intros k. induction k as [|k IH]; intros page rows ids Hk Hpage Hrows; simpl.
  - rewrite walkPages_none by (simpl; lia).
    rewrite take_0, take_nil. simpl.
    destruct (decide _).
    + assert (rows = 0) as -> by lia. rewrite pagesFor_0. simpl.
      do 3 f_equal; [lia | set_solver].
    + simpl. do 3 f_equal; [lia | lia | set_solver].
  - set (X := drop (Z.to_nat ((page - 1) * L)) coll).
    rewrite <- (take_take_drop X (Z.to_nat L) (k * Z.to_nat L)).
    set (A := take (Z.to_nat L) X).
    set (B := take (k * Z.to_nat L) (drop (Z.to_nat L) X)).
    destruct (decide (rows = 0)) as [->|Hpos].
    { rewrite walkPages_none by (simpl; lia). simpl.
      rewrite decide_True by lia. rewrite pagesFor_0. simpl.
      do 3 f_equal; [lia | set_solver]. }
    rewrite walkPages_eq, decide_True by (simpl; lia). simpl.
    fold X A. rewrite selectRows_spec by lia. simpl.
    assert (length A <= Z.to_nat L)%nat as HA.
    { unfold A. rewrite length_take. lia. }
    assert (length A < Z.to_nat L → B = [])%nat as HB.
    { unfold A, B. rewrite length_take. intros Hlt.
      rewrite drop_ge by lia. by rewrite take_nil. }
    specialize (IH (page + 1) (rows - Z.of_nat (length (take (Z.to_nat rows) A)))
                  (ids ∪ idSet (take (Z.to_nat rows) A))).
    rewrite pageRecords_next in IH by lia. fold X B in IH.
    change (pageRecords coll L page) with A. cbv zeta in IH.
    rewrite IH by (rewrite ?length_take; lia). clear IH. simpl.
    rewrite take_app, idSet_app, !length_app, !length_take.
    set (m := Z.of_nat (Z.to_nat rows `min` length A)).
    replace (Z.to_nat (rows - m)) with (Z.to_nat rows - length A)%nat by lia.
    set (V1 := if decide (rows - m <= Z.of_nat (length B))
               then pagesFor (rows - m) L else Z.of_nat k).
    assert (0 <= V1) as HV1.
    { unfold V1, pagesFor. destruct (decide _); [|lia].
      apply Z.div_pos; lia. }
    assert ((if decide (rows <= Z.of_nat (length A + length B))
             then pagesFor rows L else Z.of_nat (S k)) = V1 + 1) as ->.
    { unfold V1.
      destruct (decide (rows <= Z.of_nat (length A + length B))) as [Hle|Hgt].
      - rewrite decide_True by lia.
        destruct (decide (rows <= Z.of_nat (length A))) as [Hin|Hout].
        + replace (rows - m) with 0 by lia.
          rewrite pagesFor_0, pagesFor_1 by lia. done.
        + assert (length A = Z.to_nat L) as HAL.
          { destruct (decide (length A < Z.to_nat L)%nat) as [Hlt|]; [|lia].
            rewrite (HB Hlt) in Hle. simpl in Hle. lia. }
          rewrite (pagesFor_step rows). do 2 f_equal. lia.
      - rewrite decide_False by lia. lia. }
    rewrite (seqZ_cons page) by lia.
    f_equal.
    + f_equal. f_equal; lia.
    + do 2 f_equal; [lia | lia | set_solver].
Qed.

(** The handler over the paged collection, for a count [n >= 1]. *)
Lemma handleSelectRowsByCount_paged (st : AppState) (n : Z) :
  parseInt (rowCountInput st) = Some n → 1 <= n →
  0 <= total_pages (pagination st) →
  let tp := total_pages (pagination st) in
  let avail := take (Z.to_nat tp * Z.to_nat L) coll in
  let visited := if decide (n <= Z.of_nat (length avail)) then pagesFor n L else tp in
  handleSelectRowsByCount (pagedEndpoint coll L) st =
    {| effects := (EFetch <$> seqZ 1 visited) ++ [EHideOverlay];
       final := setRowCountInput EmptyString
                  (setSelectedRowIds
                     (selectedRowIds st ∪ idSet (take (Z.to_nat n) avail)) st);
       completion := Fulfilled Undefined |}.
Proof.
  intros Hparse Hn Htp tp avail visited.
  rewrite (handleSelectRowsByCount_walk _ _ n) by done.
  rewrite (walkPages_paged tp (Z.to_nat tp)) by lia.
  simpl. rewrite drop_0. fold avail.
  replace (Z.of_nat (Z.to_nat tp)) with tp by lia. done.
Qed.

End PagedCollection.

(** ** Fifteen records of a hundred, in pages of twelve *)

Lemma first15_outcome (coll : list Artwork) (st : AppState) :
  length coll = 100%nat →
  total_pages (pagination st) = 9 →
  parseInt (rowCountInput st) = Some 15 →
  handleSelectRowsByCount (pagedEndpoint coll 12) st =
    {| effects := (EFetch <$> [1; 2]) ++ [EHideOverlay];
       final := setRowCountInput EmptyString
                  (setSelectedRowIds (selectedRowIds st ∪ idSet (take 15 coll)) st);
       completion := Fulfilled Undefined |}.
Proof.
  intros Hlen Htp Hparse.
  rewrite (handleSelectRowsByCount_paged coll 12 ltac:(lia) st 15) by (done || lia).
  rewrite Htp. rewrite (take_ge coll) by (rewrite Hlen; lia).
  rewrite decide_True by lia. done.
Qed.

Lemma first15_size (coll : list Artwork) :
  length coll = 100%nat → NoDup (id <$> coll) →
  size (idSet (take 15 coll)) = 15%nat.
Proof.
  intros Hlen Hnd. unfold idSet.
  rewrite size_list_to_set by by apply NoDup_take_ids.
  rewrite length_fmap, length_take. lia.
Qed.

Lemma first15_pages (coll : list Artwork) :
  take 15 coll = pageRecords coll 12 1 ++ take 3 (pageRecords coll 12 2).
Proof.
  unfold pageRecords.
  change (Z.to_nat ((1 - 1) * 12)) with 0%nat.
  change (Z.to_nat ((2 - 1) * 12)) with 12%nat.
  change (Z.to_nat 12) with 12%nat.
  rewrite drop_0, take_take.
  apply (eq_sym (take_take_drop coll 12 3)).
Qed.

(** Claim C1, as the code has it. Over a collection of 100 records with
    distinct ids served in pages of 12, and with the stored page count 9, a
    count of 15 makes the handler request page 1, then page 2, and nothing
    else; the records taken are the twelve of page 1 followed by the first
    three of page 2, which are records 1 to 15 of the collection; their ids
    are united with the selection the handler started from. The fifteen ids
    are distinct, so the selection has fifteen members when it held none
    outside them before (when it was empty, for one); an id selected before
    the call stays selected and counts. *)
Theorem selectFirstN_15_of_100 (coll : list Artwork) (st : AppState) :
  length coll = 100%nat →
  NoDup (id <$> coll) →
  total_pages (pagination st) = 9 →
  parseInt (rowCountInput st) = Some 15 →
  let out := handleSelectRowsByCount (pagedEndpoint coll 12) st in
  fetchedPages (effects out) = [1; 2] ∧
  take 15 coll = pageRecords coll 12 1 ++ take 3 (pageRecords coll 12 2) ∧
  selectedRowIds (final out) = selectedRowIds st ∪ idSet (take 15 coll) ∧
  size (idSet (take 15 coll)) = 15%nat ∧
  (selectedRowIds st ⊆ idSet (take 15 coll) →
   size (selectedRowIds (final out)) = 15%nat) ∧
  completion out = Fulfilled Undefined.
Proof.
  intros Hlen Hnd Htp Hparse out.
  pose proof (first15_size coll Hlen Hnd) as Hsize.
  unfold out. rewrite (first15_outcome coll st) by done. simpl.
  split; [done|]. split; [apply first15_pages|].
  split; [done|]. split; [done|]. split; [|done].
  intros Hsub.
  replace (selectedRowIds st ∪ idSet (take 15 coll))
    with (idSet (take 15 coll)) by set_solver.
  done.
Qed.

(** C1 at a sample: records with ids 1 to 100, page 1 on display, nothing
    selected, the count field holding "15". *)
Lemma selectFirstN_15_of_100_witness :
  let coll := sampleCollection 100 in
  let st := setRowCountInput "15" (loadedState coll 12 1) in
  let out := handleSelectRowsByCount (pagedEndpoint coll 12) st in
  fetchedPages (effects out) = [1; 2] ∧
  take 15 coll = pageRecords coll 12 1 ++ take 3 (pageRecords coll 12 2) ∧
  selectedRowIds (final out) = selectedRowIds st ∪ idSet (take 15 coll) ∧
  size (idSet (take 15 coll)) = 15%nat ∧
  (selectedRowIds st ⊆ idSet (take 15 coll) →
   size (selectedRowIds (final out)) = 15%nat) ∧
  completion out = Fulfilled Undefined.
Proof.
  apply (selectFirstN_15_of_100 (sampleCollection 100)
           (setRowCountInput "15" (loadedState (sampleCollection 100) 12 1))).
  - reflexivity.
  - apply (bool_decide_unpack _). vm_compute. reflexivity.
  - reflexivity.
  - reflexivity.
Defined.

(** C1 as it is written fails for a selection that is not empty: with
    record 50 selected beforehand (on page 5), and the metadata of the claim
    stored, the selection has sixteen members after the call. *)
Lemma selectFirstN_15_size_16 :
  let coll := sampleCollection 100 in
  let st := setRowCountInput "15"
              (setSelectedRowIds {[ 50 ]} (loadedState coll 12 1)) in
  let out := handleSelectRowsByCount (pagedEndpoint coll 12) st in
  pagination st = {| total := 100; limit := 12; offset := 0;
                     total_pages := 9; current_page := 1 |} ∧
  fetchedPages (effects out) = [1; 2] ∧
  size (selectedRowIds (final out)) = 16%nat ∧
  size (selectedRowIds (final out)) ≠ 15%nat.
Proof.
  split; [reflexivity|]. split; [vm_compute; reflexivity|].
  assert (size (selectedRowIds (final (handleSelectRowsByCount
             (pagedEndpoint (sampleCollection 100) 12)
             (setRowCountInput "15"
                (setSelectedRowIds {[ 50 ]}
                   (loadedState (sampleCollection 100) 12 1)))))) = 16%nat) as H
    by (vm_compute; reflexivity).
  split; [exact H|]. rewrite H. discriminate.
Qed.

(** ** A request that fails during the walk *)

(** Claim C2, as the code has it. When the walk for a count [n] reaches a
    page [k] whose request fails (pages 1 to k-1 load and hold fewer than [n]
    records, and [k] is within the stored page count), the handler stops
    there: pages 1 to k have been requested and no other; the error of the
    failed request leaves the handler as it was thrown, with no page index
    attached; and nothing is stored, so every state cell, the selection
    included, is as it was before the call. The ids gathered from pages 1
    to k-1 were added to a local copy only and are lost with it. *)
Theorem selectFirstN_fetch_failure
    (fetch : Z → FetchResult) (st : AppState) (n k : Z) (e : JsError) :
  parseInt (rowCountInput st) = Some n →
  1 <= k <= total_pages (pagination st) →
  fetch k = Rejected e →
  (∀ j, 1 <= j < k → ∃ data pg, fetch j = Resolved data pg) →
  recordsBefore fetch k < n →
  handleSelectRowsByCount fetch st =
    {| effects := EFetch <$> seqZ 1 k; final := st; completion := Thrown e |}.
Proof.
  intros Hparse Hk Hrej Hres Hrows. unfold recordsBefore in Hrows.
  pose proof (pageLengths_nonneg fetch (seqZ 1 (k - 1))).
  rewrite (handleSelectRowsByCount_walk fetch st n) by (done || lia).
  rewrite (walkPages_fails fetch _ k e (Z.to_nat (k - 1))); simpl; try done; try lia.
  - do 3 f_equal. lia.
  - by replace (Z.of_nat (Z.to_nat (k - 1))) with (k - 1) by lia.
Qed.

(** C2 at a sample: page 2 of the hundred records fails, the count is 15. *)
Lemma selectFirstN_fetch_failure_witness :
  let coll := sampleCollection 100 in
  let fetch := failingAt 2 NetworkError (pagedEndpoint coll 12) in
  let st := setRowCountInput "15" (loadedState coll 12 1) in
  handleSelectRowsByCount fetch st =
    {| effects := EFetch <$> seqZ 1 2; final := st; completion := Thrown NetworkError |}.
Proof.
  apply (selectFirstN_fetch_failure
           (failingAt 2 NetworkError (pagedEndpoint (sampleCollection 100) 12))
           (setRowCountInput "15" (loadedState (sampleCollection 100) 12 1))
           15 2 NetworkError).
  - reflexivity.
  - split; [lia | vm_compute; discriminate].
  - reflexivity.
  - intros j Hj. assert (j = 1) as -> by lia. eexists _, _. reflexivity.
  - vm_compute. reflexivity.
Defined.

(** C2 as it is written fails: page 1 loads and its twelve ids, the id 1
    among them, are gathered by the inner loop; page 2 fails; after the call
    the id 1 is not selected, and the selection is as empty as before. *)
Lemma selectFirstN_failure_drops_progress :
  let coll := sampleCollection 100 in
  let fetch := failingAt 2 NetworkError (pagedEndpoint coll 12) in
  let st := setRowCountInput "15" (loadedState coll 12 1) in
  let out := handleSelectRowsByCount fetch st in
  fetchedPages (effects out) = [1; 2] ∧
  completion out = Thrown NetworkError ∧
  (1 ∈ (selectRows (pageRecords coll 12 1) 15 (selectedRowIds st)).2) ∧
  (1 ∉ selectedRowIds (final out)) ∧
  selectedRowIds (final out) = ∅.
Proof.
  repeat split; try (vm_compute; reflexivity);
    apply (bool_decide_unpack _); vm_compute; reflexivity.
Qed.

(** ** Counts that are not accepted *)

(** Claim C3, as the code has it. A count field whose [parseInt] value is
    [NaN], or is an integer that is not positive, makes the handler raise
    the alert and return: no request is sent, and the state, the selection
    included, is the one before the call. The test is on the value of
    [parseInt], so a field that is not an integer numeral is refused only
    when it has no leading digits. *)
Theorem selectFirstN_invalid_count (fetch : Z → FetchResult) (st : AppState) :
  parseInt (rowCountInput st) = None ∨
  (∃ n, parseInt (rowCountInput st) = Some n ∧ n <= 0) →
  let out := handleSelectRowsByCount fetch st in
  effects out = [EAlert invalidNumberMessage] ∧
  fetchedPages (effects out) = [] ∧
  final out = st ∧
  completion out = Fulfilled Undefined.
Proof.
  intros H out. unfold out, handleSelectRowsByCount.
  destruct H as [-> | (n & -> & Hn)]; [done|].
  rewrite decide_True by done. done.
Qed.

(** C3 at a sample: the count field holds "-3". *)
Lemma selectFirstN_invalid_count_witness :
  let fetch := pagedEndpoint (sampleCollection 100) 12 in
  let st := setRowCountInput "-3" (loadedState (sampleCollection 100) 12 1) in
  let out := handleSelectRowsByCount fetch st in
  effects out = [EAlert invalidNumberMessage] ∧
  fetchedPages (effects out) = [] ∧
  final out = st ∧
  completion out = Fulfilled Undefined.
Proof.
  apply (selectFirstN_invalid_count (pagedEndpoint (sampleCollection 100) 12)
           (setRowCountInput "-3" (loadedState (sampleCollection 100) 12 1))).
  right. exists (-3). split; [reflexivity | lia].
Defined.

(** The two inputs the specification names. *)
Example selectFirstN_zero_rejected :
  handleSelectRowsByCount (pagedEndpoint (sampleCollection 100) 12)
    (setRowCountInput "0" (loadedState (sampleCollection 100) 12 1)) =
  {| effects := [EAlert invalidNumberMessage];
     final := setRowCountInput "0" (loadedState (sampleCollection 100) 12 1);
     completion := Fulfilled Undefined |}.
Proof. reflexivity. Qed.

(** C3 as it is written fails for a count that is not an integer: "3.7" is
    read as 3, page 1 is requested and three ids join the selection. *)
Lemma selectFirstN_fraction_accepted :
  let coll := sampleCollection 100 in
  let st := setRowCountInput "3.7" (loadedState coll 12 1) in
  let out := handleSelectRowsByCount (pagedEndpoint coll 12) st in
  integerNumeral "3.7" = false ∧
  parseInt "3.7" = Some 3 ∧
  effects out = [EFetch 1; EHideOverlay] ∧
  selectedRowIds st = ∅ ∧
  elements (selectedRowIds (final out)) ≡ₚ [1; 2; 3].
Proof.
  repeat split; try (vm_compute; reflexivity).
  apply (bool_decide_unpack _). vm_compute. reflexivity.
Qed.

(** ** Merging the checked rows of the visible page *)

Lemma deleteEach_spec (ids : list Z) (s : gset Z) :
  deleteEach ids s = s ∖ list_to_set ids.
Proof.
  unfold deleteEach. revert s.
  induction ids as [|i ids IH]; intros s; simpl; [set_solver|].
  rewrite IH. set_solver.
Qed.

Lemma addEach_spec (value : list Artwork) (s : gset Z) :
  addEach value s = s ∪ idSet value.
Proof.
  unfold addEach, idSet. revert s.
  induction value as [|a value IH]; intros s; simpl; [set_solver|].
  rewrite IH. set_solver.
Qed.

(** Claim C4. [pageIds] are the ids of the records on display and [value]
    the rows now checked, all of them rows of the page. The handler stores
    (old selection minus [pageIds]) united with the ids of [value]: an id of
    the page is selected afterwards exactly when it is among the checked
    rows, an id outside the page is selected afterwards exactly when it was
    before, and no other state cell changes. *)
Theorem handleSelectionChange_reconciles (st : AppState) (value : list Artwork) :
  idSet value ⊆ idSet (artworks st) →
  let pageIds := idSet (artworks st) in
  let st' := handleSelectionChange (Rows value) st in
  selectedRowIds st' = (selectedRowIds st ∖ pageIds) ∪ idSet value ∧
  (∀ i, i ∈ pageIds → (i ∈ selectedRowIds st' ↔ i ∈ idSet value)) ∧
  (∀ i, i ∉ pageIds → (i ∈ selectedRowIds st' ↔ i ∈ selectedRowIds st)) ∧
  st' = setSelectedRowIds (selectedRowIds st') st.
Proof.
  intros Hsub pageIds st'.
  assert (selectedRowIds st' = (selectedRowIds st ∖ pageIds) ∪ idSet value) as Heq.
  { unfold st', handleSelectionChange. simpl.
    by rewrite addEach_spec, deleteEach_spec. }
  split; [done|]. split; [|split]; [| |done].
  - intros i Hi. rewrite Heq. set_solver.
  - intros i Hi. rewrite Heq. set_solver.
Qed.

(** C4 at a sample: page 1 of the hundred records on display, ids 2 and 30
    selected, rows 1 and 3 checked. *)
Lemma handleSelectionChange_reconciles_witness :
  let st := setSelectedRowIds {[ 2; 30 ]} (loadedState (sampleCollection 100) 12 1) in
  let value := [sampleArtwork 1; sampleArtwork 3] in
  let pageIds := idSet (artworks st) in
  let st' := handleSelectionChange (Rows value) st in
  selectedRowIds st' = (selectedRowIds st ∖ pageIds) ∪ idSet value ∧
  (∀ i, i ∈ pageIds → (i ∈ selectedRowIds st' ↔ i ∈ idSet value)) ∧
  (∀ i, i ∉ pageIds → (i ∈ selectedRowIds st' ↔ i ∈ selectedRowIds st)) ∧
  st' = setSelectedRowIds (selectedRowIds st') st.
Proof.
  apply (handleSelectionChange_reconciles
           (setSelectedRowIds {[ 2; 30 ]} (loadedState (sampleCollection 100) 12 1))
           [sampleArtwork 1; sampleArtwork 3]).
  apply (bool_decide_unpack _). vm_compute. reflexivity.
Defined.

Example handleSelectionChange_sample :
  elements (selectedRowIds
    (handleSelectionChange (Rows [sampleArtwork 1; sampleArtwork 3])
       (setSelectedRowIds {[ 2; 30 ]} (loadedState (sampleCollection 100) 12 1))))
  ≡ₚ [1; 3; 30].
Proof. apply (bool_decide_unpack _). vm_compute. reflexivity. Qed.

(** ** The checked rows of the visible page *)

Lemma sublist_filter_max {A : Type} (P : A → Prop) `{!∀ x, Decision (P x)}
    (l k : list A) :
  sublist l k → Forall P l → sublist l (filter P k).
Proof.
  induction 1 as [|x l1 l2 _ IH|x l1 l2 _ IH]; intros Hall.
  - constructor.
  - inversion_clear Hall as [|? ? Hx Hall'].
    rewrite filter_cons_True by done. apply sublist_skip. by apply IH.
  - rewrite filter_cons. destruct (decide (P x)); [apply sublist_cons|]; by apply IH.
Qed.

(** Claim C9. The rows returned are a subsequence of the records on display
    (so none comes from elsewhere and the order is the page's); a record is
    among them exactly when it is on the page and its id is selected; and
    they are all of those: every subsequence of the page whose ids are all
    selected is a subsequence of the rows returned. *)
Theorem getCurrentPageSelectedRows_exact (st : AppState) :
  let rows := getCurrentPageSelectedRows st in
  (∀ a, a ∈ rows ↔ a ∈ artworks st ∧ id a ∈ selectedRowIds st) ∧
  sublist rows (artworks st) ∧
  (∀ l, sublist l (artworks st) →
        Forall (fun a => id a ∈ selectedRowIds st) l → sublist l rows).
Proof.
  intros rows. unfold rows, getCurrentPageSelectedRows. split; [|split].
  - intros a. rewrite list_elem_of_filter. tauto.
  - apply sublist_filter.
  - intros l Hl Hall. by apply sublist_filter_max.
Qed.

Example getCurrentPageSelectedRows_sample :
  id <$> getCurrentPageSelectedRows
           (setSelectedRowIds {[ 2; 30; 11 ]} (loadedState (sampleCollection 100) 12 1))
  = [2; 11].
Proof. vm_compute. reflexivity. Qed.

(** ** Page loading *)

Lemma takeOut_elem (p : Z) (l : list Z) : p ∈ l → is_Some (takeOut p l).
Proof.
  induction l as [|q l IH]; simpl; [by intros ?%elem_of_nil|].
  intros Hin. destruct (decide (p = q)); [done|].
  apply elem_of_cons in Hin as [?|Hin]; [done|].
  destruct (IH Hin) as [l' ->]. done.
Qed.

(** The response to any request in flight is taken in when it arrives,
    whatever has been requested since. *)
Lemma step_arrival (s : Session) (page : Z) (r : FetchResult) :
  page ∈ inFlight s →
  ∃ rest, takeOut page (inFlight s) = Some rest ∧
    step s (Arrives page r) =
      Some {| app := (fetchArtworksSettle r (app s)).2; inFlight := rest;
              console := console s ++ (fetchArtworksSettle r (app s)).1 |}.
Proof.
  intros Hin. destruct (takeOut_elem _ _ Hin) as [rest Hrest].
  exists rest. split; [done|]. simpl. by rewrite Hrest.
Qed.

(** Claim C5, as the code has it. [fetchArtworks] keeps no record of which
    request is the latest, so every response is stored when it arrives. When
    page [early] is requested, then page [late] while the first request is in
    flight, and the response for [late] arrives before the one for [early],
    the run ends with the records and the metadata of the response for
    [early] on display: the response that arrives last wins, not the request
    issued last. The selection is not touched. *)
Theorem stale_response_commits (st : AppState) (early late : Z)
    (dataE dataL : list Artwork) (pgE pgL : PaginationInfo) :
  let evs := [PageChange (early - 1); PageChange (late - 1);
              Arrives late (Resolved dataL pgL);
              Arrives early (Resolved dataE pgE)] in
  ∃ s', run (atRest st) evs = Some s' ∧
        inFlight s' = [] ∧
        artworks (app s') = dataE ∧
        pagination (app s') = pgE ∧
        loading (app s') = false ∧
        selectedRowIds (app s') = selectedRowIds st.
Proof.
  intros evs. unfold evs. simpl.
  replace (early - 1 + 1) with early by lia.
  replace (late - 1 + 1) with late by lia.
  destruct (decide (late = early)) as [->|Hne]; simpl.
  - rewrite decide_True by done. eexists. split; [reflexivity|]. done.
  - rewrite decide_True by done. simpl. rewrite decide_True by done.
    eexists. split; [reflexivity|]. done.
Qed.

(** C5 as it is written fails: page 3 is requested, then page 4; the
    response for page 4 arrives first, the one for page 3 last; the component
    ends up showing page 3. *)
Lemma stale_page3_overwrites_page4 :
  let coll := sampleCollection 100 in
  let evs := [PageChange 2; PageChange 3;
              Arrives 4 (pagedEndpoint coll 12 4);
              Arrives 3 (pagedEndpoint coll 12 3)] in
  ∃ s', run (atRest (loadedState coll 12 1)) evs = Some s' ∧
        current_page (pagination (app s')) = 3 ∧
        artworks (app s') = pageRecords coll 12 3 ∧
        artworks (app s') ≠ pageRecords coll 12 4.
Proof.
  eexists. split; [vm_compute; reflexivity|].
  repeat split; try (vm_compute; reflexivity). vm_compute. discriminate.
Qed.

(** On the typed state: when the request of [fetchArtworks] throws, the
    error is written to the console and the loading flag is cleared; nothing
    else changes: the records and the metadata of the page shown before stay
    on display, the selection stays, and no state cell holds the error. *)
Theorem fetchArtworks_failure (fetch : Z → FetchResult) (page : Z) (st : AppState)
    (e : JsError) :
  fetch page = Rejected e →
  let out := fetchArtworks fetch page st in
  out = {| effects := [EFetch page; EConsoleError e];
           final := setLoading false st;
           completion := Fulfilled Undefined |} ∧
  artworks (final out) = artworks st ∧
  pagination (final out) = pagination st ∧
  selectedRowIds (final out) = selectedRowIds st ∧
  loading (final out) = false.
Proof.
  intros Hrej out. unfold out, fetchArtworks. rewrite Hrej. simpl.
  by destruct st.
Qed.

(** At a sample: page 1 on display, the request for page 2 throws. *)
Lemma fetchArtworks_failure_witness :
  let coll := sampleCollection 100 in
  let fetch := failingAt 2 NetworkError (pagedEndpoint coll 12) in
  let st := loadedState coll 12 1 in
  let out := fetchArtworks fetch 2 st in
  out = {| effects := [EFetch 2; EConsoleError NetworkError];
           final := setLoading false st;
           completion := Fulfilled Undefined |} ∧
  artworks (final out) = artworks st ∧
  pagination (final out) = pagination st ∧
  selectedRowIds (final out) = selectedRowIds st ∧
  loading (final out) = false.
Proof.
  apply (fetchArtworks_failure
           (failingAt 2 NetworkError (pagedEndpoint (sampleCollection 100) 12))
           2 (loadedState (sampleCollection 100) 12 1) NetworkError).
  reflexivity.
Defined.

(** The same failure as an event of the component: the response of a
    request in flight arrives as a rejection. *)
Lemma step_arrival_failure (s : Session) (page : Z) (e : JsError) :
  page ∈ inFlight s →
  ∃ s', step s (Arrives page (Rejected e)) = Some s' ∧
        app s' = setLoading false (app s) ∧
        console s' = console s ++ [EConsoleError e].
Proof.
  intros Hin. destruct (step_arrival s page (Rejected e) Hin) as (rest & _ & Hstep).
  eexists. split; [exact Hstep|]. done.
Qed.

(** ** A count beyond the size of the collection *)

(** Claim C6, as the code has it. Over a collection served in pages of [L]
    whose pages are all within the stored page count, a count [n] larger than
    the collection makes the handler request every page up to the stored page
    count, in order, and unite the ids of all records with the selection. The
    handler ends without an error and its promise carries [undefined]: no
    count is returned. From an empty selection and with distinct ids, the
    number selected is the size of the collection. For a count up to 2^53,
    where the counter of the source is exact, the loop counter has gone down
    by the size of the collection and is still positive when the pages run
    out. *)
Theorem selectFirstN_beyond_total
    (coll : list Artwork) (L : Z) (st : AppState) (n : Z) :
  0 < L →
  parseInt (rowCountInput st) = Some n →
  Z.of_nat (length coll) < n →
  pageCount coll L <= total_pages (pagination st) →
  let out := handleSelectRowsByCount (pagedEndpoint coll L) st in
  completion out = Fulfilled Undefined ∧
  fetchedPages (effects out) = seqZ 1 (total_pages (pagination st)) ∧
  selectedRowIds (final out) = selectedRowIds st ∪ idSet coll ∧
  (NoDup (id <$> coll) → selectedRowIds st = ∅ →
   size (selectedRowIds (final out)) = length coll) ∧
  (n <= maxExactCount →
   ∃ w, (walkPages (pagedEndpoint coll L) (total_pages (pagination st))
           {| rowsToSelect := n; currentPage := 1;
              updatedSelectedIds := selectedRowIds st |}).2 = inr w ∧
        n - rowsToSelect w = Z.of_nat (length coll) ∧ 0 < rowsToSelect w).
Proof.
  intros HL Hparse Hn Htp out.
  pose proof (pageCount_nonneg coll L HL) as Hpc.
  pose proof (pageCount_covers coll L HL _ Htp) as Hcover.
  assert (out = {| effects := (EFetch <$> seqZ 1 (total_pages (pagination st)))
                                ++ [EHideOverlay];
                   final := setRowCountInput EmptyString
                              (setSelectedRowIds (selectedRowIds st ∪ idSet coll) st);
                   completion := Fulfilled Undefined |}) as ->.
  { unfold out. rewrite (handleSelectRowsByCount_paged coll L HL st n) by (done || lia).
    rewrite Hcover. rewrite decide_False by lia.
    rewrite (take_ge coll) by lia. done. }
  simpl. split; [done|]. split; [|split; [done|split]].
  - rewrite fetchedPages_fetches. simpl. by rewrite app_nil_r.
  - intros Hnd Hempty. rewrite Hempty.
    replace (∅ ∪ idSet coll) with (idSet coll) by set_solver.
    unfold idSet. rewrite size_list_to_set by done. by rewrite length_fmap.
  - intros _.
    rewrite (walkPages_paged coll L HL _ (Z.to_nat (total_pages (pagination st))))
      by lia.
    simpl. rewrite drop_0, Hcover. rewrite (take_ge coll) by lia.
    eexists. split; [reflexivity|]. simpl. lia.
Qed.

(** C6 at a sample: five records, one page, the count field holding "8". *)
Lemma selectFirstN_beyond_total_witness :
  let coll := sampleCollection 5 in
  let st := setRowCountInput "8" (loadedState coll 12 1) in
  let out := handleSelectRowsByCount (pagedEndpoint coll 12) st in
  completion out = Fulfilled Undefined ∧
  fetchedPages (effects out) = seqZ 1 (total_pages (pagination st)) ∧
  selectedRowIds (final out) = selectedRowIds st ∪ idSet coll ∧
  (NoDup (id <$> coll) → selectedRowIds st = ∅ →
   size (selectedRowIds (final out)) = length coll) ∧
  (8 <= maxExactCount →
   ∃ w, (walkPages (pagedEndpoint coll 12) (total_pages (pagination st))
           {| rowsToSelect := 8; currentPage := 1;
              updatedSelectedIds := selectedRowIds st |}).2 = inr w ∧
        8 - rowsToSelect w = Z.of_nat (length coll) ∧ 0 < rowsToSelect w).
Proof.
  apply (selectFirstN_beyond_total (sampleCollection 5) 12
           (setRowCountInput "8" (loadedState (sampleCollection 5) 12 1)) 8).
  - lia.
  - reflexivity.
  - simpl. lia.
  - vm_compute. discriminate.
Defined.

(** C6 as it is written fails twice over. With the five records loaded and
    a count of 8, all five are selected but the promise of the handler
    carries [undefined], not the number 5. With the same count before any
    page has loaded, the stored page count is 0 and none of the five records
    is selected. *)
Lemma selectFirstN_beyond_total_no_count :
  let coll := sampleCollection 5 in
  let loaded := setRowCountInput "8" (loadedState coll 12 1) in
  let unloaded := setRowCountInput "8" initialState in
  let out := handleSelectRowsByCount (pagedEndpoint coll 12) loaded in
  let out0 := handleSelectRowsByCount (pagedEndpoint coll 12) unloaded in
  (Z.of_nat (length coll) < 8 ∧ parseInt "8" = Some 8) ∧
  size (selectedRowIds (final out)) = 5%nat ∧
  completion out = Fulfilled Undefined ∧
  completion out ≠ Fulfilled (Number 5) ∧
  fetchedPages (effects out0) = [] ∧
  selectedRowIds (final out0) = ∅ ∧
  completion out0 = Fulfilled Undefined.
Proof.
  repeat split; try (vm_compute; reflexivity); discriminate.
Qed.

(** ** Running the bulk selection twice *)

(** Claim C7. For a count [n >= 1], any endpoint and any state: running the
    handler, typing the same count again (the handler empties the field) and
    running it once more leaves the selection that the first run left, so its
    size is the same too. For the hundred records in pages of twelve, the
    count 15 and a selection with no id outside the first fifteen (empty,
    for one), two runs leave fifteen ids selected. *)
Theorem selectFirstN_twice (fetch : Z → FetchResult) (st : AppState) (n : Z) :
  parseInt (rowCountInput st) = Some n →
  1 <= n →
  let once := final (handleSelectRowsByCount fetch st) in
  let again := setRowCountInput (rowCountInput st) once in
  let twice := final (handleSelectRowsByCount fetch again) in
  selectedRowIds twice = selectedRowIds once ∧
  size (selectedRowIds twice) = size (selectedRowIds once) ∧
  (∀ coll, fetch = pagedEndpoint coll 12 → n = 15 →
     length coll = 100%nat → NoDup (id <$> coll) →
     total_pages (pagination st) = 9 →
     selectedRowIds st ⊆ idSet (take 15 coll) →
     size (selectedRowIds twice) = 15%nat).
Proof.
  intros Hparse Hn once again twice.
  assert (selectedRowIds twice = selectedRowIds once) as Heq.
  { unfold twice, again, once.
    rewrite (handleSelectRowsByCount_walk fetch st n) by done.
    rewrite walkPages_from_empty. simpl.
    destruct (walkPages fetch (total_pages (pagination st))
                {| rowsToSelect := n; currentPage := 1; updatedSelectedIds := ∅ |})
      as [pages [e|w]] eqn:Hw; simpl.
    - rewrite setRowCountInput_same.
      rewrite (handleSelectRowsByCount_walk fetch st n) by done.
      rewrite walkPages_from_empty, Hw. done.
    - rewrite (handleSelectRowsByCount_walk fetch _ n) by done. simpl.
      rewrite walkPages_from_empty, Hw. simpl. set_solver. }
  split; [done|]. split; [by rewrite Heq|].
  intros coll -> -> Hlen Hnd Htp Hsub. rewrite Heq.
  unfold once. rewrite (first15_outcome coll st) by done. simpl.
  replace (selectedRowIds st ∪ idSet (take 15 coll))
    with (idSet (take 15 coll)) by set_solver.
  by apply first15_size.
Qed.

(** C7 at a sample: the hundred records, page 1 on display, nothing
    selected, the count 15. *)
Lemma selectFirstN_twice_witness :
  let fetch := pagedEndpoint (sampleCollection 100) 12 in
  let st := setRowCountInput "15" (loadedState (sampleCollection 100) 12 1) in
  let once := final (handleSelectRowsByCount fetch st) in
  let again := setRowCountInput (rowCountInput st) once in
  let twice := final (handleSelectRowsByCount fetch again) in
  selectedRowIds twice = selectedRowIds once ∧
  size (selectedRowIds twice) = size (selectedRowIds once) ∧
  (∀ coll, fetch = pagedEndpoint coll 12 → 15 = 15 →
     length coll = 100%nat → NoDup (id <$> coll) →
     total_pages (pagination st) = 9 →
     selectedRowIds st ⊆ idSet (take 15 coll) →
     size (selectedRowIds twice) = 15%nat).
Proof.
  apply (selectFirstN_twice (pagedEndpoint (sampleCollection 100) 12)
           (setRowCountInput "15" (loadedState (sampleCollection 100) 12 1)) 15).
  - reflexivity.
  - lia.
Defined.

Example selectFirstN_twice_sample :
  let fetch := pagedEndpoint (sampleCollection 100) 12 in
  let st := setRowCountInput "15" (loadedState (sampleCollection 100) 12 1) in
  let once := final (handleSelectRowsByCount fetch st) in
  let twice := final (handleSelectRowsByCount fetch (setRowCountInput "15" once)) in
  size (selectedRowIds once) = 15%nat ∧ size (selectedRowIds twice) = 15%nat.
Proof. split; vm_compute; reflexivity. Qed.

(** ** Before the first page has loaded *)

(** Claim C10. The bound of the walk is the page count stored in the state
    when the handler is called. With a count [n >= 1] and the stored page
    count 0, as it is before any page has loaded, the handler sends no
    request, whatever the endpoint would answer; it hides the overlay, stores
    the selection it started from and ends without an error or an alert. *)
Theorem selectFirstN_before_first_load
    (fetch : Z → FetchResult) (st : AppState) (n : Z) :
  parseInt (rowCountInput st) = Some n →
  1 <= n →
  total_pages (pagination st) = 0 →
  let out := handleSelectRowsByCount fetch st in
  fetchedPages (effects out) = [] ∧
  effects out = [EHideOverlay] ∧
  selectedRowIds (final out) = selectedRowIds st ∧
  completion out = Fulfilled Undefined.
Proof.
  intros Hparse Hn Htp out. unfold out.
  rewrite (handleSelectRowsByCount_walk fetch st n) by done.
  rewrite walkPages_none by (simpl; lia). done.
Qed.

(** C10 at a sample: the initial state, the count field holding "15", an
    endpoint that would report nine pages. *)
Lemma selectFirstN_before_first_load_witness :
  let fetch := pagedEndpoint (sampleCollection 100) 12 in
  let st := setRowCountInput "15" initialState in
  let out := handleSelectRowsByCount fetch st in
  fetchedPages (effects out) = [] ∧
  effects out = [EHideOverlay] ∧
  selectedRowIds (final out) = selectedRowIds st ∧
  completion out = Fulfilled Undefined.
Proof.
  apply (selectFirstN_before_first_load (pagedEndpoint (sampleCollection 100) 12)
           (setRowCountInput "15" initialState) 15).
  - reflexivity.
  - lia.
  - reflexivity.
Defined.

(** ** The bulk selection in general *)

(** X1. Page order of the walk (code lines 106-123). For any endpoint and any
    state, the pages the handler requests are 1, 2, ..., k in this order, each
    once, for some k that does not exceed the stored page count. *)
Theorem bulk_walk_page_order (fetch : Z → FetchResult) (st : AppState) :
  ∃ k : nat,
    fetchedPages (effects (handleSelectRowsByCount fetch st)) = seqZ 1 (Z.of_nat k) ∧
    Z.of_nat k <= Z.max 0 (total_pages (pagination st)).
Proof.
  pose proof (handleSelectRowsByCount_page_bound fetch st) as Hbound.
  assert (fetchedPages (effects (handleSelectRowsByCount fetch st)) =
          seqZ 1 (Z.of_nat (length
            (fetchedPages (effects (handleSelectRowsByCount fetch st)))))) as Hseq.
  { unfold handleSelectRowsByCount.
    destruct (parseInt (rowCountInput st)) as [n|]; simpl; [|done].
    destruct (decide (n <= 0)); simpl; [done|].
    pose proof (walkPages_pages fetch (total_pages (pagination st))
                  {| rowsToSelect := n; currentPage := 1;
                     updatedSelectedIds := selectedRowIds st |}) as Hp.
    destruct (walkPages _ _ _) as [pages [e|w]]; simpl in *.
    - rewrite <- (app_nil_r (EFetch <$> pages)), fetchedPages_fetches, app_nil_r.
      done.
    - rewrite fetchedPages_fetches. simpl. rewrite app_nil_r. done. }
  exists (length (fetchedPages (effects (handleSelectRowsByCount fetch st)))).
  split; [done|].
  destruct (length (fetchedPages (effects (handleSelectRowsByCount fetch st))))
    as [|k] eqn:Hlen; [lia|].
  assert (Z.of_nat (S k) ∈ seqZ 1 (Z.of_nat (S k))) as Hin.
  { apply elem_of_seqZ. lia. }
  rewrite <- Hseq in Hin. apply Hbound in Hin. lia.
Qed.

(** X2. The first [n] records (code lines 99-128). Over a collection served in
    pages of [L] whose pages are all within the stored page count, a count
    [n >= 1] makes the handler unite the ids of the first [n] records of the
    collection (all of them when there are fewer) with the selection. It
    requests the first [pagesFor n L] pages when the collection has [n]
    records, and every page up to the stored count otherwise. The records on
    display, the metadata and the loading flag are as before; the count field
    is emptied. *)
Theorem selectFirstN_paged (coll : list Artwork) (L : Z) (st : AppState) (n : Z) :
  0 < L →
  parseInt (rowCountInput st) = Some n →
  1 <= n →
  pageCount coll L <= total_pages (pagination st) →
  let out := handleSelectRowsByCount (pagedEndpoint coll L) st in
  selectedRowIds (final out) = selectedRowIds st ∪ idSet (take (Z.to_nat n) coll) ∧
  fetchedPages (effects out) =
    seqZ 1 (if decide (n <= Z.of_nat (length coll))
            then pagesFor n L else total_pages (pagination st)) ∧
  completion out = Fulfilled Undefined ∧
  artworks (final out) = artworks st ∧
  pagination (final out) = pagination st ∧
  loading (final out) = loading st ∧
  rowCountInput (final out) = EmptyString.
Proof.
  intros HL Hparse Hn Htp out.
  pose proof (pageCount_nonneg coll L HL) as Hpc.
  unfold out.
  rewrite (handleSelectRowsByCount_paged coll L HL st n) by (done || lia).
  rewrite (pageCount_covers coll L HL _ Htp). simpl.
  rewrite fetchedPages_fetches. simpl. rewrite app_nil_r. done.
Qed.

(** X2 at a sample: the hundred records, page 3 on display, the count 30. *)
Lemma selectFirstN_paged_witness :
  let coll := sampleCollection 100 in
  let st := setRowCountInput "30" (loadedState coll 12 3) in
  let out := handleSelectRowsByCount (pagedEndpoint coll 12) st in
  selectedRowIds (final out) = selectedRowIds st ∪ idSet (take (Z.to_nat 30) coll) ∧
  fetchedPages (effects out) =
    seqZ 1 (if decide (30 <= Z.of_nat (length coll))
            then pagesFor 30 12 else total_pages (pagination st)) ∧
  completion out = Fulfilled Undefined ∧
  artworks (final out) = artworks st ∧
  pagination (final out) = pagination st ∧
  loading (final out) = loading st ∧
  rowCountInput (final out) = EmptyString.
Proof.
  apply (selectFirstN_paged (sampleCollection 100) 12
           (setRowCountInput "30" (loadedState (sampleCollection 100) 12 3)) 30).
  - lia.
  - reflexivity.
  - lia.
  - vm_compute. discriminate.
Defined.

Example selectFirstN_paged_sample :
  fetchedPages (effects (handleSelectRowsByCount (pagedEndpoint (sampleCollection 100) 12)
                           (setRowCountInput "30" (loadedState (sampleCollection 100) 12 3))))
  = [1; 2; 3].
Proof. vm_compute. reflexivity. Qed.

(** ** What the walk adds *)

Lemma size_union_list (ids : gset Z) (l : list Z) :
  (size (ids ∪ list_to_set l) <= size ids + length l)%nat.
Proof.
  induction l as [|x l IH]; simpl.
  - replace (ids ∪ ∅) with ids by set_solver. lia.
  - replace (ids ∪ ({[x]} ∪ list_to_set l))
      with ({[x]} ∪ (ids ∪ list_to_set l)) by set_solver.
    rewrite size_union_alt, size_singleton.
    assert (size ((ids ∪ list_to_set l) ∖ {[x]}) <= size (ids ∪ list_to_set l))%nat
      by (apply subseteq_size; set_solver).
    lia.
Qed.

Lemma selectRows_grows (data : list Artwork) (rows : Z) (ids : gset Z) :
  0 <= rows →
  let r := selectRows data rows ids in
  0 <= r.1 <= rows ∧
  ids ⊆ r.2 ∧ r.2 ⊆ ids ∪ idSet data ∧
  Z.of_nat (size r.2) <= Z.of_nat (size ids) + (rows - r.1).
Proof.
  intros Hrows r. unfold r. rewrite selectRows_spec by done. simpl.
  rewrite length_take. split; [lia|]. split; [set_solver|]. split.
  - unfold idSet. intros i [Hi|Hi]%elem_of_union; [set_solver|].
    apply elem_of_union_r. apply elem_of_list_to_set in Hi.
    apply elem_of_list_to_set. apply list_elem_of_fmap in Hi as (a & -> & Ha).
    apply list_elem_of_fmap. exists a. split; [done|].
    eapply elem_of_sublist; [exact Ha | apply sublist_take].
  - pose proof (size_union_list ids (id <$> take (Z.to_nat rows) data)) as H.
    rewrite length_fmap, length_take in H. unfold idSet. lia.
Qed.

Lemma walkPages_grows (fetch : Z → FetchResult) (tp : Z) (w w' : Walk) :
  0 <= rowsToSelect w →
  (walkPages fetch tp w).2 = inr w' →
  0 <= rowsToSelect w' <= rowsToSelect w ∧
  updatedSelectedIds w ⊆ updatedSelectedIds w' ∧
  Z.of_nat (size (updatedSelectedIds w')) <=
    Z.of_nat (size (updatedSelectedIds w)) + (rowsToSelect w - rowsToSelect w') ∧
  (∀ i, i ∈ updatedSelectedIds w' → i ∈ updatedSelectedIds w ∨
     ∃ p data pg, p ∈ (walkPages fetch tp w).1 ∧ fetch p = Resolved data pg ∧
                  i ∈ idSet data).
Proof.
  revert w'. funelim (walkPages fetch tp w); intros w' Hrows; simpl.
  - intros [= <-]. repeat split; try lia; set_solver.
  - intros Hres.
    pose proof (selectRows_grows data (rowsToSelect w) (updatedSelectedIds w) Hrows)
      as (Hr1 & Hsub & Hin & Hsize).
    match goal with IH : ∀ _, _ → _ → _ |- _ =>
      specialize (IH w' ltac:(simpl; lia) Hres); simpl in IH;
      destruct IH as (Hr2 & Hsub2 & Hsize2 & Hprov) end.
    split; [lia|]. split; [set_solver|]. split; [lia|].
    intros i Hi. destruct (Hprov i Hi) as [Hold | (p & d & pg' & Hp & Hf & Hd)].
    + apply Hin in Hold. apply elem_of_union in Hold as [?|?]; [by left|].
      right. exists (currentPage w), data, pg. split; [left|]; done.
    + right. exists p, d, pg'. split; [by right|]. done.
  - discriminate.
Qed.

Lemma walkPages_thrown (fetch : Z → FetchResult) (tp : Z) (w : Walk) (e : JsError) :
  (walkPages fetch tp w).2 = inl e →
  ∃ m : nat,
    (walkPages fetch tp w).1 = seqZ (currentPage w) (Z.of_nat m + 1) ∧
    currentPage w + Z.of_nat m <= tp ∧
    fetch (currentPage w + Z.of_nat m) = Rejected e ∧
    (∀ j, currentPage w <= j < currentPage w + Z.of_nat m →
          ∃ data pg, fetch j = Resolved data pg).
Proof.
  funelim (walkPages fetch tp w); simpl.
  - discriminate.
  - intros Hres.
    match goal with IH : ∀ _, _ → ∃ _, _ |- _ =>
      destruct (IH _ Hres) as (m & Htr & Hle & Hrej & Hok); simpl in * end.
    exists (S m). rewrite Htr. split; [|split; [|split]].
    + rewrite (seqZ_cons (currentPage w)) by lia. f_equal. f_equal; lia.
    + lia.
    + rewrite <- Hrej. f_equal. lia.
    + intros j Hj. destruct (decide (j = currentPage w)) as [->|Hne]; [eauto|].
      apply Hok. lia.
  - intros [= <-]. exists 0%nat. simpl. split; [done|].
    rewrite Z.add_0_r. split; [lia|]. split; [done|]. intros j Hj. lia.
Qed.

(** ** What the bulk selection leaves alone, and what it adds *)

(** X3. Whatever the endpoint answers and whatever the count field holds,
    the handler leaves the records on display, the pagination metadata and
    the loading flag as they were, and the count field is either untouched or
    emptied. *)
Theorem bulk_selection_keeps_display (fetch : Z → FetchResult) (st : AppState) :
  let out := handleSelectRowsByCount fetch st in
  artworks (final out) = artworks st ∧
  pagination (final out) = pagination st ∧
  loading (final out) = loading st ∧
  (rowCountInput (final out) = rowCountInput st ∨
   rowCountInput (final out) = EmptyString).
Proof.
  intros out. unfold out, handleSelectRowsByCount.
  destruct (parseInt (rowCountInput st)) as [n|]; simpl; [|by auto].
  destruct (decide (n <= 0)); simpl; [by auto|].
  destruct (walkPages _ _ _) as [pages [e|w]]; simpl; by auto.
Qed.

(** X4. Against the selection the handler was called with, of which it
    takes a copy: the selection it stores contains every id of that
    selection, at most as many further ids as the count it read, and beyond
    that selection only ids of records on pages it requested during this
    call. *)
Theorem bulk_selection_adds_at_most_n (fetch : Z → FetchResult) (st : AppState) :
  let out := handleSelectRowsByCount fetch st in
  selectedRowIds st ⊆ selectedRowIds (final out) ∧
  (∀ n, parseInt (rowCountInput st) = Some n →
        Z.of_nat (size (selectedRowIds (final out))) <=
          Z.of_nat (size (selectedRowIds st)) + Z.max 0 n) ∧
  (∀ i, i ∈ selectedRowIds (final out) → i ∈ selectedRowIds st ∨
     ∃ p data pg, p ∈ fetchedPages (effects out) ∧
                  fetch p = Resolved data pg ∧ i ∈ idSet data).
Proof.
  intros out. unfold out, handleSelectRowsByCount.
  destruct (parseInt (rowCountInput st)) as [n|]; simpl;
    [|split; [done|]; split; [done|]; by left].
  destruct (decide (n <= 0)); simpl.
  { split; [done|]. split; [|by left]. intros ? [= <-]. lia. }
  pose proof (walkPages_grows fetch (total_pages (pagination st))
                {| rowsToSelect := n; currentPage := 1;
                   updatedSelectedIds := selectedRowIds st |}) as Hgrow.
  destruct (walkPages _ _ _) as [pages [e|w]]; simpl in *.
  { split; [done|]. split; [|by left]. intros ? [= <-]. lia. }
  destruct (Hgrow w ltac:(lia) eq_refl) as (Hr & Hsub & Hsize & Hprov).
  split; [done|]. split.
  - intros ? [= <-]. lia.
  - intros i Hi. destruct (Hprov i Hi) as [?|(p & d & pg & Hp & Hf & Hd)]; [by left|].
    right. exists p, d, pg. rewrite fetchedPages_fetches. simpl.
    rewrite app_nil_r. done.
Qed.

(** X5. When the handler's promise is rejected, nothing has been stored; the
    pages requested are 1 to k for the page k whose request failed with that
    very error, and every page before k had loaded. *)
Theorem bulk_selection_thrown (fetch : Z → FetchResult) (st : AppState) (e : JsError) :
  completion (handleSelectRowsByCount fetch st) = Thrown e →
  final (handleSelectRowsByCount fetch st) = st ∧
  ∃ k, 1 <= k <= total_pages (pagination st) ∧
       fetchedPages (effects (handleSelectRowsByCount fetch st)) = seqZ 1 k ∧
       fetch k = Rejected e ∧
       (∀ j, 1 <= j < k → ∃ data pg, fetch j = Resolved data pg).
Proof.
  unfold handleSelectRowsByCount.
  destruct (parseInt (rowCountInput st)) as [n|]; simpl; [|discriminate].
  destruct (decide (n <= 0)); simpl; [discriminate|].
  pose proof (walkPages_thrown fetch (total_pages (pagination st))
                {| rowsToSelect := n; currentPage := 1;
                   updatedSelectedIds := selectedRowIds st |}) as Hthrown.
  destruct (walkPages _ _ _) as [pages [e'|w]]; simpl in *; [|discriminate].
  intros [= ->]. split; [done|].
  destruct (Hthrown e eq_refl) as (m & -> & Hle & Hrej & Hok).
  exists (1 + Z.of_nat m). split; [lia|]. split; [|split; [done|]].
  - rewrite <- (app_nil_r (EFetch <$> _)), fetchedPages_fetches, app_nil_r.
    f_equal. lia.
  - intros j Hj. apply Hok. lia.
Qed.

Lemma bulk_selection_thrown_witness :
  let coll := sampleCollection 100 in
  let fetch := failingAt 3 ParseError (pagedEndpoint coll 12) in
  let st := setRowCountInput "40" (loadedState coll 12 1) in
  final (handleSelectRowsByCount fetch st) = st ∧
  ∃ k, 1 <= k <= total_pages (pagination st) ∧
       fetchedPages (effects (handleSelectRowsByCount fetch st)) = seqZ 1 k ∧
       fetch k = Rejected ParseError ∧
       (∀ j, 1 <= j < k → ∃ data pg, fetch j = Resolved data pg).
Proof.
  apply (bulk_selection_thrown
           (failingAt 3 ParseError (pagedEndpoint (sampleCollection 100) 12))
           (setRowCountInput "40" (loadedState (sampleCollection 100) 12 1))
           ParseError).
  vm_compute. reflexivity.
Defined.

(** ** Page events and the selection *)

Lemma step_keeps_selection (s s' : Session) (ev : Event) :
  step s ev = Some s' →
  selectedRowIds (app s') = selectedRowIds (app s) ∧
  rowCountInput (app s') = rowCountInput (app s).
Proof.
  destruct ev as [eventPage|page r]; simpl.
  - intros [= <-]. done.
  - destruct (takeOut page (inFlight s)) as [rest|]; [|discriminate].
    intros [= <-]. by destruct r.
Qed.

(** X6. No sequence of page changes and arriving responses, in whatever
    order and whether the responses are pages or failures, changes the
    selection or the count field. *)
Theorem page_events_keep_selection (s s' : Session) (evs : list Event) :
  run s evs = Some s' →
  selectedRowIds (app s') = selectedRowIds (app s) ∧
  rowCountInput (app s') = rowCountInput (app s).
Proof.
  revert s. induction evs as [|ev evs IH]; intros s; simpl.
  - intros [= <-]. done.
  - destruct (step s ev) as [s1|] eqn:Hstep; [|discriminate].
    intros Hrun. destruct (IH _ Hrun) as [-> ->].
    by apply (step_keeps_selection s s1 ev).
Qed.

Lemma page_events_keep_selection_witness :
  let coll := sampleCollection 100 in
  let s := atRest (setSelectedRowIds {[ 2; 30 ]} (loadedState coll 12 1)) in
  let s' := {| app := setSelectedRowIds {[ 2; 30 ]} (loadedState coll 12 3);
               inFlight := [];
               console := [EFetch 3; EFetch 4; EConsoleError NetworkError] |} in
  selectedRowIds (app s') = selectedRowIds (app s) ∧
  rowCountInput (app s') = rowCountInput (app s).
Proof.
  apply (page_events_keep_selection
           (atRest (setSelectedRowIds {[ 2; 30 ]}
                      (loadedState (sampleCollection 100) 12 1)))
           {| app := setSelectedRowIds {[ 2; 30 ]}
                       (loadedState (sampleCollection 100) 12 3);
              inFlight := [];
              console := [EFetch 3; EFetch 4; EConsoleError NetworkError] |}
           [PageChange 2; PageChange 3;
            Arrives 4 (Rejected NetworkError);
            Arrives 3 (pagedEndpoint (sampleCollection 100) 12 3)]).
  vm_compute. reflexivity.
Defined.

(** ** The loading flag *)

Lemma step_loading (s s' : Session) (ev : Event) :
  step s ev = Some s' →
  inFlight s' = [] → loading (app s') = false.
Proof.
  destruct ev as [eventPage|page r]; simpl.
  - intros [= <-]. simpl. by destruct (inFlight s).
  - destruct (takeOut page (inFlight s)) as [rest|]; [|discriminate].
    intros [= <-] _. by destruct r.
Qed.

(** X7. Once every request has been answered the loading flag is off: from
    a component where this holds, it holds again after any sequence of page
    changes and arrivals. *)
Theorem loading_off_when_idle (s s' : Session) (evs : list Event) :
  (inFlight s = [] → loading (app s) = false) →
  run s evs = Some s' →
  inFlight s' = [] → loading (app s') = false.
Proof.
  revert s. induction evs as [|ev evs IH]; intros s Hinv; simpl.
  - intros [= <-]. done.
  - destruct (step s ev) as [s1|] eqn:Hstep; [|discriminate].
    apply IH. by apply (step_loading s s1 ev).
Qed.

Lemma loading_off_when_idle_witness :
  let coll := sampleCollection 100 in
  let s' := {| app := loadedState coll 12 2; inFlight := [];
               console := [EFetch 1; EFetch 2] |} in
  loading (app s') = false.
Proof.
  apply (loading_off_when_idle mounted
           {| app := loadedState (sampleCollection 100) 12 2; inFlight := [];
              console := [EFetch 1; EFetch 2] |}
           [Arrives 1 (pagedEndpoint (sampleCollection 100) 12 1);
            PageChange 1;
            Arrives 2 (pagedEndpoint (sampleCollection 100) 12 2)]).
  - discriminate.
  - vm_compute. reflexivity.
  - reflexivity.
Defined.

(** X8. The flag is a boolean, not a count of requests: with two requests
    in flight, the first response to arrive, whichever it is, switches the
    flag off while the other request is still pending. *)
Theorem loading_off_while_pending (st : AppState) (a b : Z) (r : FetchResult) :
  (∃ s', run (atRest st) [PageChange a; PageChange b; Arrives (a + 1) r] = Some s' ∧
         inFlight s' = [b + 1] ∧ loading (app s') = false) ∧
  (∃ s', run (atRest st) [PageChange a; PageChange b; Arrives (b + 1) r] = Some s' ∧
         inFlight s' = [a + 1] ∧ loading (app s') = false).
Proof.
  split; simpl.
  - rewrite decide_True by done. eexists. split; [reflexivity|]. by destruct r.
  - destruct (decide (b + 1 = a + 1)) as [Heq|Hne]; simpl.
    + eexists. split; [reflexivity|]. rewrite Heq. by destruct r.
    + rewrite decide_True by done. simpl.
      eexists. split; [reflexivity|]. by destruct r.
Qed.

(** ** Checking rows and coming back to a page *)

Lemma filter_all {A : Type} (P : A → Prop) `{!∀ x, Decision (P x)} (l : list A) :
  Forall P l → filter P l = l.
Proof.
  induction 1 as [|x l Hx _ IH]; [done|].
  rewrite filter_cons_True by done. by rewrite IH.
Qed.

Lemma filter_none {A : Type} (P : A → Prop) `{!∀ x, Decision (P x)} (l : list A) :
  Forall (fun x => ¬ P x) l → filter P l = [].
Proof.
  induction 1 as [|x l Hx _ IH]; [done|].
  rewrite filter_cons_False by done. done.
Qed.

Lemma filter_agree {A : Type} (P Q : A → Prop)
    `{!∀ x, Decision (P x)} `{!∀ x, Decision (Q x)} (l : list A) :
  (∀ x, x ∈ l → (P x ↔ Q x)) → filter P l = filter Q l.
Proof.
  induction l as [|x l IH]; intros Hagree; [done|].
  rewrite !filter_cons.
  assert (P x ↔ Q x) as Hx by (apply Hagree; left).
  rewrite IH by (intros y Hy; apply Hagree; by right).
  destruct (decide (P x)), (decide (Q x)); tauto.
Qed.

(** Over records with distinct ids, the rows whose id is among the ids of a
    subsequence are that subsequence. *)
Lemma filter_ids_sublist (value page : list Artwork) :
  sublist value page → NoDup (id <$> page) →
  filter (fun a => id a ∈ idSet value) page = value.
Proof.
  induction 1 as [|x l1 l2 Hsub IH|x l1 l2 Hsub IH]; intros Hnd.
  - done.
  - rewrite fmap_cons in Hnd. apply list.NoDup_cons in Hnd as [Hx Hnd].
    rewrite filter_cons_True by (unfold idSet; set_solver).
    f_equal. transitivity (filter (fun a => id a ∈ idSet l1) l2); [|by apply IH].
    apply filter_agree. intros a Ha. unfold idSet. rewrite fmap_cons, list_to_set_cons.
    assert (id a ≠ id x).
    { intros Heq. apply Hx. rewrite <- Heq. apply list_elem_of_fmap. eauto. }
    set_solver.
  - rewrite fmap_cons in Hnd. apply list.NoDup_cons in Hnd as [Hx Hnd].
    rewrite filter_cons_False; [by apply IH|].
    unfold idSet. rewrite elem_of_list_to_set. intros Hin. apply Hx.
    apply list_elem_of_fmap in Hin as (a & -> & Ha).
    apply list_elem_of_fmap. exists a. split; [done|].
    by eapply elem_of_sublist.
Qed.

(** X9. What the user checks is what the table shows checked: when the
    records on display have distinct ids and the event carries a subsequence
    of them, the rows computed for the table after the handler are exactly
    the rows of the event, whatever was selected before. *)
Theorem checked_rows_round_trip (st : AppState) (value : list Artwork) :
  NoDup (id <$> artworks st) →
  sublist value (artworks st) →
  getCurrentPageSelectedRows (handleSelectionChange (Rows value) st) = value.
Proof.
  intros Hnd Hsub. unfold getCurrentPageSelectedRows, handleSelectionChange. simpl.
  rewrite addEach_spec, deleteEach_spec.
  transitivity (filter (fun a => id a ∈ idSet value) (artworks st));
    [|by apply filter_ids_sublist].
  apply filter_agree. intros a Ha.
  assert (id a ∈ (list_to_set (currentPageRowIds st) : gset Z)).
  { apply elem_of_list_to_set. unfold currentPageRowIds.
    apply list_elem_of_fmap. eauto. }
  set_solver.
Qed.

Lemma checked_rows_round_trip_witness :
  let st := setSelectedRowIds {[ 2; 30 ]} (loadedState (sampleCollection 100) 12 1) in
  let value := [sampleArtwork 1; sampleArtwork 3] in
  getCurrentPageSelectedRows (handleSelectionChange (Rows value) st) = value.
Proof.
  apply (checked_rows_round_trip
           (setSelectedRowIds {[ 2; 30 ]} (loadedState (sampleCollection 100) 12 1))
           [sampleArtwork 1; sampleArtwork 3]).
  - apply (bool_decide_unpack _). vm_compute. reflexivity.
  - apply (sublist_skip (sampleArtwork 1)), sublist_cons, (sublist_skip (sampleArtwork 3)).
    apply sublist_nil_l.
Defined.

(** X10. Leaving a page and coming back shows the same rows checked, also
    when rows of the other page were checked or unchecked in between: the
    other page's ids being disjoint from this page's, and the endpoint
    serving this page's records again on return. *)
Theorem checked_rows_survive_navigation
    (fetch : Z → FetchResult) (st : AppState) (p q : Z)
    (dataQ value : list Artwork) (pgP pgQ : PaginationInfo) :
  fetch p = Resolved (artworks st) pgP →
  fetch q = Resolved dataQ pgQ →
  idSet dataQ ## idSet (artworks st) →
  idSet value ⊆ idSet dataQ →
  let away := final (fetchArtworks fetch q st) in
  let changed := handleSelectionChange (Rows value) away in
  let back := final (fetchArtworks fetch p changed) in
  artworks back = artworks st ∧
  getCurrentPageSelectedRows back = getCurrentPageSelectedRows st ∧
  selectedRowIds back = (selectedRowIds st ∖ idSet dataQ) ∪ idSet value.
Proof.
  intros Hp Hq Hdisj Hsub away changed back.
  assert (selectedRowIds back = (selectedRowIds st ∖ idSet dataQ) ∪ idSet value)
    as Hsel.
  { unfold back, changed, away, fetchArtworks, handleSelectionChange.
    rewrite Hq. simpl. rewrite Hp. simpl.
    by rewrite addEach_spec, deleteEach_spec. }
  assert (artworks back = artworks st) as Hart.
  { unfold back, fetchArtworks. rewrite Hp. done. }
  split; [done|]. split; [|done].
  unfold getCurrentPageSelectedRows. rewrite Hart, Hsel.
  apply filter_agree. intros a Ha.
  assert (id a ∈ idSet (artworks st)).
  { unfold idSet. apply elem_of_list_to_set, list_elem_of_fmap. eauto. }
  set_solver.
Qed.

Lemma checked_rows_survive_navigation_witness :
  let coll := sampleCollection 100 in
  let fetch := pagedEndpoint coll 12 in
  let st := setSelectedRowIds {[ 2; 30 ]} (loadedState coll 12 1) in
  let value := [sampleArtwork 14] in
  let away := final (fetchArtworks fetch 2 st) in
  let changed := handleSelectionChange (Rows value) away in
  let back := final (fetchArtworks fetch 1 changed) in
  artworks back = artworks st ∧
  getCurrentPageSelectedRows back = getCurrentPageSelectedRows st ∧
  selectedRowIds back =
    (selectedRowIds st ∖ idSet (pageRecords coll 12 2)) ∪ idSet value.
Proof.
  apply (checked_rows_survive_navigation
           (pagedEndpoint (sampleCollection 100) 12)
           (setSelectedRowIds {[ 2; 30 ]} (loadedState (sampleCollection 100) 12 1))
           1 2 (pageRecords (sampleCollection 100) 12 2) [sampleArtwork 14]
           (pageInfo (sampleCollection 100) 12 1)
           (pageInfo (sampleCollection 100) 12 2)).
  - reflexivity.
  - reflexivity.
  - apply (bool_decide_unpack _). vm_compute. reflexivity.
  - apply (bool_decide_unpack _). vm_compute. reflexivity.
Defined.

(** X11. On one page the last selection event wins: an earlier event whose
    rows were all rows of the page leaves no trace once a later event has
    been handled; in particular handling the same event twice is the same as
    handling it once. *)
Theorem later_selection_event_wins (st : AppState) (v1 v2 : list Artwork) :
  idSet v1 ⊆ idSet (artworks st) →
  handleSelectionChange (Rows v2) (handleSelectionChange (Rows v1) st) =
    handleSelectionChange (Rows v2) st ∧
  handleSelectionChange (Rows v1) (handleSelectionChange (Rows v1) st) =
    handleSelectionChange (Rows v1) st.
Proof.
  intros Hsub.
  assert (∀ v, handleSelectionChange (Rows v) (handleSelectionChange (Rows v1) st) =
               handleSelectionChange (Rows v) st) as H.
  { intros v. unfold handleSelectionChange, setSelectedRowIds, currentPageRowIds.
    simpl. f_equal. rewrite !addEach_spec, !deleteEach_spec.
    fold (idSet (artworks st)). set_solver. }
  split; apply H.
Qed.

Lemma later_selection_event_wins_witness :
  let st := setSelectedRowIds {[ 2; 30 ]} (loadedState (sampleCollection 100) 12 1) in
  let v1 := [sampleArtwork 1; sampleArtwork 3] in
  let v2 := [sampleArtwork 5] in
  handleSelectionChange (Rows v2) (handleSelectionChange (Rows v1) st) =
    handleSelectionChange (Rows v2) st ∧
  handleSelectionChange (Rows v1) (handleSelectionChange (Rows v1) st) =
    handleSelectionChange (Rows v1) st.
Proof.
  apply (later_selection_event_wins
           (setSelectedRowIds {[ 2; 30 ]} (loadedState (sampleCollection 100) 12 1))
           [sampleArtwork 1; sampleArtwork 3] [sampleArtwork 5]).
  apply (bool_decide_unpack _). vm_compute. reflexivity.
Defined.

Lemma handleSelectionChange_selection (st : AppState) (value : list Artwork) :
  selectedRowIds (handleSelectionChange (Rows value) st) =
    (selectedRowIds st ∖ idSet (artworks st)) ∪ idSet value.
Proof.
  unfold handleSelectionChange. simpl. by rewrite addEach_spec, deleteEach_spec.
Qed.

Lemma handleSelectionChange_artworks (e : SelectionValue) (st : AppState) :
  artworks (handleSelectionChange e st) = artworks st.
Proof. done. Qed.

(** X12. Checking every row of the page and then unchecking them all
    leaves the selection without any id of the page: what was selected on
    other pages is kept, what was selected on this page before is gone, so
    the size drops by the number of this page's ids that were selected. *)
Theorem check_all_then_none (st : AppState) :
  let pageIds := idSet (artworks st) in
  let allOn := handleSelectionChange (Rows (artworks st)) st in
  let allOff := handleSelectionChange (Rows []) allOn in
  selectedRowIds allOn = selectedRowIds st ∪ pageIds ∧
  selectedRowIds allOff = selectedRowIds st ∖ pageIds ∧
  (size (selectedRowIds allOff) + size (selectedRowIds st ∩ pageIds))%nat =
    size (selectedRowIds st) ∧
  getCurrentPageSelectedRows allOn = artworks st ∧
  getCurrentPageSelectedRows allOff = [].
Proof.
  intros pageIds allOn allOff.
  assert (selectedRowIds allOn = selectedRowIds st ∪ pageIds) as Hon.
  { unfold allOn. rewrite handleSelectionChange_selection. fold pageIds.
    apply set_eq. intros i. destruct (decide (i ∈ pageIds)); set_solver. }
  assert (selectedRowIds allOff = selectedRowIds st ∖ pageIds) as Hoff.
  { unfold allOff. rewrite handleSelectionChange_selection, Hon.
    change (artworks allOn) with (artworks st). fold pageIds.
    unfold idSet at 1. simpl. set_solver. }
  assert (∀ a, a ∈ artworks st → id a ∈ pageIds) as Hpage.
  { intros a Ha. unfold pageIds, idSet.
    apply elem_of_list_to_set, list_elem_of_fmap. eauto. }
  split; [done|]. split; [done|]. split; [|split].
  - rewrite Hoff, size_difference_alt.
    assert (size (selectedRowIds st ∩ pageIds) <= size (selectedRowIds st))%nat
      by (apply subseteq_size; set_solver).
    lia.
  - unfold getCurrentPageSelectedRows. rewrite Hon.
    change (artworks allOn) with (artworks st).
    apply filter_all. apply list.Forall_forall. intros a Ha.
    apply elem_of_union_r. by apply Hpage.
  - unfold getCurrentPageSelectedRows. rewrite Hoff.
    change (artworks allOff) with (artworks st).
    apply filter_none. apply list.Forall_forall. intros a Ha.
    apply Hpage in Ha. set_solver.
Qed.

(** ** From the first render to a bulk selection *)

Lemma mounted_first_page (coll : list Artwork) (L : Z) :
  run mounted [Arrives 1 (pagedEndpoint coll L 1)] =
    Some {| app := setLoading false
                     (setPagination (pageInfo coll L 1)
                        (setArtworks (pageRecords coll L 1)
                           (fetchArtworksBegin initialState)));
            inFlight := [];
            console := [EFetch 1] |}.
Proof. reflexivity. Qed.

(** Over records with distinct ids, the rows among the first [L] whose id is
    among the ids of the first [m] are the first [min m L]. *)
Lemma filter_first_ids (coll : list Artwork) (m L : nat) :
  NoDup (id <$> coll) →
  filter (fun a => id a ∈ idSet (take m coll)) (take L coll) = take (m `min` L) coll.
Proof.
  intros Hnd. destruct (decide (m <= L)%nat) as [Hle|Hgt].
  - rewrite Nat.min_l by done.
    replace L with (m + (L - m))%nat by lia.
    rewrite <- (take_take_drop coll m (L - m)).
    rewrite list.filter_app, filter_all, filter_none; [by rewrite app_nil_r| |].
    + apply list.Forall_forall. intros a Ha Hin.
      rewrite <- (take_drop m coll), fmap_app in Hnd.
      apply list.NoDup_app in Hnd as (_ & Hdisj & _).
      unfold idSet in Hin. apply elem_of_list_to_set in Hin.
      apply (Hdisj _ Hin). apply list_elem_of_fmap. exists a. split; [done|].
      eapply elem_of_sublist; [exact Ha | apply sublist_take].
    + apply list.Forall_forall. intros a Ha.
      unfold idSet. apply elem_of_list_to_set, list_elem_of_fmap. eauto.
  - rewrite Nat.min_r by lia.
    apply filter_all. apply list.Forall_forall. intros a Ha.
    unfold idSet. apply elem_of_list_to_set, list_elem_of_fmap.
    exists a. split; [done|].
    apply elem_of_take in Ha as (i & Hi & Hlt).
    apply elem_of_take. exists i. split; [done|lia].
Qed.

(** The same for a page further on: of the [L] records after the first [k],
    those whose id is among the ids of the first [n] are the first [n - k]. *)
Lemma filter_ids_prefix (coll : list Artwork) (n k L : nat) :
  NoDup (id <$> coll) →
  filter (fun a => id a ∈ idSet (take n coll)) (take L (drop k coll)) =
    take (n - k) (take L (drop k coll)).
Proof.
  intros Hnd.
  assert (∀ a, a ∈ take L (drop k coll) → id a ∉ idSet (take k coll)) as Hout.
  { intros a Ha Hin.
    rewrite <- (take_drop k coll), fmap_app in Hnd.
    apply list.NoDup_app in Hnd as (_ & Hdisj & _).
    unfold idSet in Hin. apply elem_of_list_to_set in Hin.
    apply (Hdisj _ Hin). apply list_elem_of_fmap. exists a. split; [done|].
    eapply elem_of_sublist; [exact Ha | apply sublist_take]. }
  assert (NoDup (id <$> drop k coll)) as HndX.
  { rewrite <- (take_drop k coll), fmap_app in Hnd.
    by apply list.NoDup_app in Hnd as (_ & _ & ?). }
  destruct (decide (n <= k)%nat) as [Hle|Hgt].
  - replace (n - k)%nat with 0%nat by lia. rewrite take_0.
    apply filter_none. apply list.Forall_forall. intros a Ha Hin.
    apply (Hout a Ha). unfold idSet in *.
    apply elem_of_list_to_set in Hin. apply elem_of_list_to_set.
    apply list_elem_of_fmap in Hin as (b & -> & Hb).
    apply list_elem_of_fmap. exists b. split; [done|].
    apply elem_of_take in Hb as (i & Hi & Hlt).
    apply elem_of_take. exists i. split; [done|lia].
  - transitivity (filter (fun a => id a ∈ idSet (take (n - k) (drop k coll)))
                    (take L (drop k coll))).
    + apply filter_agree. intros a Ha.
      replace n with (k + (n - k))%nat at 1 by lia.
      rewrite <- (take_take_drop coll k (n - k)), idSet_app.
      specialize (Hout a Ha). set_solver.
    + rewrite (filter_first_ids (drop k coll) (n - k) L HndX).
      by rewrite take_take.
Qed.

(** X13. From the first render on: the mount effect requests page 1; once
    a paged collection with distinct ids has answered, typing a count [n >= 1]
    and submitting selects exactly the first [n] records of the collection
    (all of them when there are fewer), and the table, still on page 1, shows
    the first [min n L] rows checked. *)
Theorem first_load_then_bulk_selection
    (coll : list Artwork) (L n : Z) (input : string) :
  0 < L →
  parseInt input = Some n →
  1 <= n →
  NoDup (id <$> coll) →
  ∃ s1, run mounted [Arrives 1 (pagedEndpoint coll L 1)] = Some s1 ∧
    let out := handleSelectRowsByCount (pagedEndpoint coll L)
                 (setRowCountInput input (app s1)) in
    completion out = Fulfilled Undefined ∧
    selectedRowIds (final out) = idSet (take (Z.to_nat n) coll) ∧
    size (selectedRowIds (final out)) = (Z.to_nat n `min` length coll)%nat ∧
    artworks (final out) = pageRecords coll L 1 ∧
    getCurrentPageSelectedRows (final out) =
      take (Z.to_nat n `min` Z.to_nat L) coll.
Proof.
  intros HL Hparse Hn Hnd. eexists. split; [apply mounted_first_page|].
  cbv zeta. cbn [app].
  set (st := setRowCountInput input _).
  assert (pagination st = pageInfo coll L 1) as Hpg by done.
  assert (artworks st = pageRecords coll L 1) as Hart by done.
  assert (selectedRowIds st = ∅) as Hsel by done.
  pose proof (pageCount_nonneg coll L HL) as Hpc.
  rewrite (handleSelectRowsByCount_paged coll L HL st n)
    by (rewrite ?Hpg; simpl; done || lia).
  rewrite Hpg. cbn [total_pages pageInfo].
  rewrite (pageCount_covers coll L HL (pageCount coll L)) by lia.
  cbn [completion final selectedRowIds artworks setRowCountInput setSelectedRowIds].
  rewrite Hsel, Hart.
  replace (∅ ∪ idSet (take (Z.to_nat n) coll)) with (idSet (take (Z.to_nat n) coll))
    by set_solver.
  split; [done|]. split; [done|]. split; [|split; [done|]].
  - unfold idSet. rewrite size_list_to_set by by apply NoDup_take_ids.
    by rewrite length_fmap, length_take.
  - unfold getCurrentPageSelectedRows.
    cbn [artworks selectedRowIds setRowCountInput setSelectedRowIds].
    rewrite Hart. unfold pageRecords.
    replace (Z.to_nat ((1 - 1) * L)) with 0%nat by lia. rewrite drop_0.
    by apply filter_first_ids.
Qed.

Lemma first_load_then_bulk_selection_witness :
  let coll := sampleCollection 100 in
  ∃ s1, run mounted [Arrives 1 (pagedEndpoint coll 12 1)] = Some s1 ∧
    let out := handleSelectRowsByCount (pagedEndpoint coll 12)
                 (setRowCountInput "15" (app s1)) in
    completion out = Fulfilled Undefined ∧
    selectedRowIds (final out) = idSet (take (Z.to_nat 15) coll) ∧
    size (selectedRowIds (final out)) = (Z.to_nat 15 `min` length coll)%nat ∧
    artworks (final out) = pageRecords coll 12 1 ∧
    getCurrentPageSelectedRows (final out) =
      take (Z.to_nat 15 `min` Z.to_nat 12) coll.
Proof.
  apply (first_load_then_bulk_selection (sampleCollection 100) 12 15 "15").
  - lia.
  - reflexivity.
  - lia.
  - apply (bool_decide_unpack _). vm_compute. reflexivity.
Defined.

(** X15. Rows selected by the bulk selection show checked on whichever page
    is visited next: starting with nothing selected, after selecting the
    first [n] records of a paged collection with distinct ids and then
    loading page [p], the rows computed for the table are the first
    [n - (p-1)*L] rows of that page (none when the page lies beyond the
    first [n] records, all of them when it lies within). *)
Theorem bulk_selection_then_visit
    (coll : list Artwork) (L : Z) (st : AppState) (n p : Z) :
  0 < L →
  parseInt (rowCountInput st) = Some n →
  1 <= n →
  pageCount coll L <= total_pages (pagination st) →
  NoDup (id <$> coll) →
  selectedRowIds st = ∅ →
  1 <= p →
  let selected := final (handleSelectRowsByCount (pagedEndpoint coll L) st) in
  let shown := final (fetchArtworks (pagedEndpoint coll L) p selected) in
  artworks shown = pageRecords coll L p ∧
  getCurrentPageSelectedRows shown =
    take (Z.to_nat (n - (p - 1) * L)) (pageRecords coll L p).
Proof.
  intros HL Hparse Hn Htp Hnd Hempty Hp selected shown.
  pose proof (pageCount_nonneg coll L HL) as Hpc.
  assert (selectedRowIds selected = idSet (take (Z.to_nat n) coll)) as Hsel.
  { unfold selected.
    rewrite (handleSelectRowsByCount_paged coll L HL st n) by (done || lia).
    rewrite (pageCount_covers coll L HL _ Htp). simpl. rewrite Hempty. set_solver. }
  assert (artworks shown = pageRecords coll L p) as Hart by done.
  assert (selectedRowIds shown = selectedRowIds selected) as Hsame by done.
  split; [done|].
  unfold getCurrentPageSelectedRows. rewrite Hart, Hsame, Hsel.
  unfold pageRecords. rewrite filter_ids_prefix by done.
  f_equal. nia.
Qed.

Lemma bulk_selection_then_visit_witness :
  let coll := sampleCollection 100 in
  let st := setRowCountInput "15" (loadedState coll 12 1) in
  let selected := final (handleSelectRowsByCount (pagedEndpoint coll 12) st) in
  let shown := final (fetchArtworks (pagedEndpoint coll 12) 2 selected) in
  artworks shown = pageRecords coll 12 2 ∧
  getCurrentPageSelectedRows shown =
    take (Z.to_nat (15 - (2 - 1) * 12)) (pageRecords coll 12 2).
Proof.
  apply (bulk_selection_then_visit (sampleCollection 100) 12
           (setRowCountInput "15" (loadedState (sampleCollection 100) 12 1)) 15 2).
  - lia.
  - reflexivity.
  - lia.
  - vm_compute. discriminate.
  - apply (bool_decide_unpack _). vm_compute. reflexivity.
  - reflexivity.
  - lia.
Defined.

Example bulk_selection_then_visit_sample :
  id <$> getCurrentPageSelectedRows
           (final (fetchArtworks (pagedEndpoint (sampleCollection 100) 12) 2
              (final (handleSelectRowsByCount (pagedEndpoint (sampleCollection 100) 12)
                 (setRowCountInput "15" (loadedState (sampleCollection 100) 12 1))))))
  = [13; 14; 15].
Proof. vm_compute. reflexivity. Qed.

(** ** Page loading, over every answer *)

(** On the answers of [FetchResult] the loader over every answer does what
    [fetchArtworks] does. *)
Lemma fetchArtworksAnswered_typed (fetch : Z → FetchResult) (page : Z) (st : AppState) :
  fetchArtworksAnswered page (exchangeOf (fetch page)) (displayOf st) =
    (concat (loaderEffectOf <$> effects (fetchArtworks fetch page st)),
     displayOf (final (fetchArtworks fetch page st))).
Proof.
  unfold fetchArtworks. destruct (fetch page) as [data pg|[|]]; reflexivity.
Qed.

Lemma holdLoading_twice (a b : bool) (d : Display) :
  holdLoading a (holdLoading b d) = holdLoading a d.
Proof. done. Qed.


(** At a sample: page 1 of the hundred records on display; the request for
    page 2 is answered with status 404 and an error body, and the request
    for page 3 is not answered at all. *)
Example fetchArtworks_not_found_answer :
  let d := displayOf (loadedState (sampleCollection 100) 12 1) in
  fetchArtworksAnswered 2 (JsonResolves false notFoundBody) d =
    ([LFetch 2],
     {| heldArtworks := HeldUndefined; heldLoading := false;
        heldPagination := HeldUndefined;
        heldSelectedRowIds := ∅; heldRowCountInput := EmptyString |}) ∧
  fetchArtworksAnswered 3 (FetchRejects NetworkError) d =
    ([LFetch 3; LConsoleError (CaughtRejection NetworkError)], d).
Proof. split; reflexivity. Qed.


(** ** Rows checked while the bulk selection is waiting *)

Lemma handleSelectRowsByCountOver_same (fetch : Z → FetchResult) (st : AppState) :
  handleSelectRowsByCountOver fetch st st = handleSelectRowsByCount fetch st.
Proof. reflexivity. Qed.

(** X16. The handler works on a copy of the selection taken when it was
    called and stores that copy at the end. Whatever other handlers did to
    the state while it was waiting, its requests, its result and the
    selection it stores are those of an undisturbed call; a row checked in
    the meantime is no longer selected afterwards unless the walk took it or
    it was selected at the call. The other cells are those of the state at
    the end, with the count field emptied. *)
Theorem bulk_commit_overwrites_selection
    (fetch : Z → FetchResult) (called now : AppState) :
  let out := handleSelectRowsByCountOver fetch called now in
  let alone := handleSelectRowsByCount fetch called in
  effects out = effects alone ∧
  completion out = completion alone ∧
  (EHideOverlay ∈ effects out →
     final out = setRowCountInput EmptyString
                   (setSelectedRowIds (selectedRowIds (final alone)) now) ∧
     (∀ i, i ∈ selectedRowIds now → i ∉ selectedRowIds (final alone) →
           i ∉ selectedRowIds (final out))) ∧
  (EHideOverlay ∉ effects out → final out = now).
Proof.
  intros out alone. unfold out, alone, handleSelectRowsByCountOver,
    handleSelectRowsByCount.
  assert (∀ pages : list Z, EHideOverlay ∉ EFetch <$> pages) as Hno.
  { intros pages Hin. apply list_elem_of_fmap in Hin as (p & Hp & _). discriminate. }
  destruct (parseInt (rowCountInput called)) as [n|]; simpl.
  - destruct (decide (n <= 0)); simpl.
    + split; [done|]. split; [done|]. split; [|done].
      intros Hin. apply list_elem_of_singleton in Hin. discriminate.
    + destruct (walkPages _ _ _) as [pages [e|w]]; simpl.
      * split; [done|]. split; [done|]. split; [|done].
        intros Hin. by apply Hno in Hin.
      * split; [done|]. split; [done|]. split; [by intros _|].
        intros Hout. exfalso. apply Hout. apply elem_of_app. right. left.
  - split; [done|]. split; [done|]. split; [|done].
    intros Hin. apply list_elem_of_singleton in Hin. discriminate.
Qed.

(** At a sample: the count 15 is submitted on page 1; while the walk waits,
    page 2 is loaded and row 20 is checked there; when the walk ends, rows 1
    to 15 are selected and row 20 is not. *)
Example bulk_commit_drops_row_20 :
  let coll := sampleCollection 100 in
  let fetch := pagedEndpoint coll 12 in
  let called := setRowCountInput "15" (loadedState coll 12 1) in
  let now := handleSelectionChange (Rows [sampleArtwork 20])
               (final (fetchArtworks fetch 2 called)) in
  let out := handleSelectRowsByCountOver fetch called now in
  elements (selectedRowIds now) = [20] ∧
  size (selectedRowIds (final out)) = 15%nat ∧
  bool_decide (20 ∈ selectedRowIds (final out)) = false ∧
  artworks (final out) = pageRecords coll 12 2.
Proof. repeat split; vm_compute; reflexivity. Qed.
